(** * fix_database.py: the AUTO_INCREMENT repair script

    A shallow embedding of [fix_node] and [main] of [src/fix_database.py].
    The database client (mysql.connector) is an external collaborator: it is
    a type class of state transformers over an arbitrary client state, every
    operation of which may return or raise.  A run of the script is a
    function from the client state to the final client state, the trace of
    what the script did (client calls with their replies, and printed
    lines, in program order) and the value returned or the exception
    raised. *)

From Stdlib Require Import String Ascii List ZArith Lia Bool DecimalString DecimalZ.
Import ListNotations.
Local Open Scope string_scope.

(** ** Python values the script handles *)

(** Exceptions are instances of [Exception], split the way the two handlers
    of [fix_node] (lines 109 and 112) split them.  [text] is [str(e)]; a
    [mysql.connector.Error] also carries the server's error number. *)
Inductive exn : Type :=
| MySQLError (errno : Z) (text : string)  (* mysql.connector.Error *)
| OtherException (text : string).         (* any other Exception *)

(** A field of a result row, as the connector hands it over. *)
Inductive field : Type :=
| FNone
| FInt (z : Z)
| FStr (s : string)
| FBytes (b : string).

Definition row : Type := list field.

(** A node configuration: [os.getenv] gives [None] for an unset variable. *)
Record Config : Type := mkConfig {
  host : option string;
  port : Z;
  user : option string;
  password : option string;
  database : option string
}.

(** ** String helpers *)

Definition nl : string := String (ascii_of_nat 10) EmptyString.

(** [s * n] *)
Fixpoint str_mul (s : string) (n : nat) : string :=
  match n with
  | O => EmptyString
  | S n' => s ++ str_mul s n'
  end.

(** [needle in hay] on strings *)
Fixpoint contains (needle hay : string) : bool :=
  String.prefix needle hay ||
  match hay with
  | EmptyString => false
  | String _ rest => contains needle rest
  end.

Definition lower_ascii (c : ascii) : ascii :=
  let n := nat_of_ascii c in
  if (65 <=? n)%nat && (n <=? 90)%nat then ascii_of_nat (n + 32) else c.

(** [s.lower()]; strings are byte strings, only ASCII letters change. *)
Fixpoint lower (s : string) : string :=
  match s with
  | EmptyString => EmptyString
  | String c rest => String (lower_ascii c) (lower rest)
  end.

(** [str(z)] for an int *)
Definition str_int (z : Z) : string := NilZero.string_of_int (Z.to_int z).

(** [str(x)] for [cursor.lastrowid], an int or [None] *)
Definition str_id (i : option Z) : string :=
  match i with
  | Some z => str_int z
  | None => "None"
  end.

(** Truth value of an [os.getenv] result: [None] and [''] are false. *)
Definition truthy (v : option string) : bool :=
  match v with
  | Some (String _ _) => true
  | _ => false
  end.

(** ** Traces *)

Inductive call : Type :=
| Connect (config : Config)
| Cursor
| Execute (sql : string)
| Fetchall
| Fetchone
| Commit
| Lastrowid
| CursorClose
| ConnClose.

Inductive reply : Type :=
| Done
| Rows (columns : list row)
| Row (r : option row)
| RowId (i : option Z)
| Raised (e : exn).

Inductive event : Type :=
| Call (c : call) (r : reply)
| Print (s : string).

Definition trace : Type := list event.

(** The statements of a trace, in the order they were sent. *)
Fixpoint statements (t : trace) : list string :=
  match t with
  | [] => []
  | Call (Execute sql) _ :: t' => sql :: statements t'
  | _ :: t' => statements t'
  end.

(** The connection attempts of a trace. *)
Fixpoint connections (t : trace) : list Config :=
  match t with
  | [] => []
  | Call (Connect c) _ :: t' => c :: connections t'
  | _ :: t' => connections t'
  end.

(** The printed lines of a trace. *)
Fixpoint printed (t : trace) : list string :=
  match t with
  | [] => []
  | Print s :: t' => s :: printed t'
  | _ :: t' => printed t'
  end.

(** ** The database client *)

Class Client (St : Type) : Type := {
  connect : Config -> St -> St * (exn + unit);
  cursor : St -> St * (exn + unit);
  execute : string -> St -> St * (exn + unit);
  fetchall : St -> St * (exn + list row);
  fetchone : St -> St * (exn + option row);
  commit : St -> St * (exn + unit);
  lastrowid : St -> St * (exn + option Z);
  cursor_close : St -> St * (exn + unit);
  conn_close : St -> St * (exn + unit)
}.

(** ** The monad of runs *)

Definition M (St A : Type) : Type := St -> St * trace * (exn + A).

Definition ret {St A} (a : A) : M St A := fun st => (st, [], inr a).

Definition raise {St A} (e : exn) : M St A := fun st => (st, [], inl e).

(** A run with [pre] done before it. *)
Definition prepend {St A} (pre : trace) (x : St * trace * (exn + A))
  : St * trace * (exn + A) :=
  match x with
  | (st, t, r) => (st, (pre ++ t)%list, r)
  end.

Definition bind {St A B} (m : M St A) (k : A -> M St B) : M St B :=
  fun st =>
    match m st with
    | (st1, t1, inl e) => (st1, t1, inl e)
    | (st1, t1, inr a) => prepend t1 (k a st1)
    end.

(** [try: m  except Exception as e: h e] *)
Definition try_except {St A} (m : M St A) (h : exn -> M St A) : M St A :=
  fun st =>
    match m st with
    | (st1, t1, inl e) => prepend t1 (h e st1)
    | (st1, t1, inr a) => (st1, t1, inr a)
    end.

(** The parts of a finished run. *)
Definition state_of {St A} (x : St * trace * (exn + A)) : St := fst (fst x).
Definition trace_of {St A} (x : St * trace * (exn + A)) : trace := snd (fst x).
Definition value_of {St A} (x : St * trace * (exn + A)) : exn + A := snd x.

Arguments state_of {St A} !x /.
Arguments trace_of {St A} !x /.
Arguments value_of {St A} !x /.

Definition print {St} (s : string) : M St unit :=
  fun st => (st, [Print s], inr tt).

(** A pure expression that may raise. *)
Definition lift {St A} (r : exn + A) : M St A :=
  fun st => (st, [], r).

(** A client call, recorded with its reply. *)
Definition invoke {St A} (c : call) (rep : A -> reply)
           (op : St -> St * (exn + A)) : M St A :=
  fun st =>
    match op st with
    | (st1, inl e) => (st1, [Call c (Raised e)], inl e)
    | (st1, inr a) => (st1, [Call c (rep a)], inr a)
    end.

Declare Scope run_scope.
Delimit Scope run_scope with run.
Notation "x <- m ;; k" := (bind m (fun x => k))
  (at level 61, m at next level, right associativity) : run_scope.
Notation "m ;; k" := (bind m (fun _ => k))
  (at level 61, right associativity) : run_scope.
Local Open Scope run_scope.

(** ** The statements *)

Definition DESCRIBE_USERS : string := "DESCRIBE users".
Definition ALTER_WITH_PK : string :=
  "ALTER TABLE users MODIFY COLUMN id INT AUTO_INCREMENT PRIMARY KEY".
Definition ALTER_WITHOUT_PK : string :=
  "ALTER TABLE users MODIFY COLUMN id INT AUTO_INCREMENT".
Definition SHOW_CREATE : string := "SHOW CREATE TABLE users".

(** The triple-quoted literal of lines 89-92, with its line breaks and
    indentation. *)
Definition INSERT_TEST : string :=
  nl ++
  "            INSERT INTO users (firstname, lastname, city, country, createdAt, updatedAt) "
  ++ nl ++
  "            VALUES ('TestFix', 'User', 'TestCity', 'USA', NOW(), NOW())"
  ++ nl ++
  "        ".

Definition DELETE_TEST (test_id : option Z) : string :=
  "DELETE FROM users WHERE id = " ++ str_id test_id.

(** ** Expressions of [fix_node] that may raise *)

(** [t[i]] on a tuple *)
Definition index (t : row) (i : nat) : exn + field :=
  match nth_error t i with
  | Some f => inr f
  | None => inl (OtherException "tuple index out of range")
  end.

(** [f == 'id'] *)
Definition is_id (f : field) : bool :=
  match f with
  | FStr s => String.eqb s "id"
  | _ => false
  end.

(** [[col for col in columns if col[0] == 'id']] *)
Fixpoint id_column (columns : list row) : exn + list row :=
  match columns with
  | [] => inr []
  | col :: rest =>
      match index col 0 with
      | inl e => inl e
      | inr name =>
          match id_column rest with
          | inl e => inl e
          | inr ids => inr (if is_id name then col :: ids else ids)
          end
      end
  end.

(** [id_column[0][5] if len(id_column[0]) > 5 else ''] *)
Definition extra (id_row : row) : exn + field :=
  if (5 <? length id_row)%nat then index id_row 5 else inr (FStr "").

(** [needle in f.lower()] *)
Definition in_lower (needle : string) (f : field) : exn + bool :=
  match f with
  | FStr s => inr (contains needle (lower s))
  | FBytes _ => inl (OtherException "a bytes-like object is required, not 'str'")
  | FNone => inl (OtherException "'NoneType' object has no attribute 'lower'")
  | FInt _ => inl (OtherException "'int' object has no attribute 'lower'")
  end.

(** [needle in f] *)
Definition in_field (needle : string) (f : field) : exn + bool :=
  match f with
  | FStr s => inr (contains needle s)
  | FBytes _ => inl (OtherException "a bytes-like object is required, not 'str'")
  | FNone => inl (OtherException "argument of type 'NoneType' is not iterable")
  | FInt _ => inl (OtherException "argument of type 'int' is not iterable")
  end.

(** [r[1]] on the result of [fetchone()], a tuple or [None] *)
Definition second (r : option row) : exn + field :=
  match r with
  | None => inl (OtherException "'NoneType' object is not subscriptable")
  | Some t => index t 1
  end.

Arguments contains : simpl never.
Arguments lower : simpl never.
Arguments str_id : simpl never.

(** ** fix_node *)

Section FixNode.

Context {St : Type} {client : Client St}.

Definition banner : string := str_mul "=" 60.

Definition call_connect (config : Config) : M St unit :=
  invoke (Connect config) (fun _ => Done) (connect config).
Definition call_cursor : M St unit :=
  invoke Cursor (fun _ => Done) cursor.
Definition call_execute (sql : string) : M St unit :=
  invoke (Execute sql) (fun _ => Done) (execute sql).
Definition call_fetchall : M St (list row) :=
  invoke Fetchall Rows fetchall.
Definition call_fetchone : M St (option row) :=
  invoke Fetchone Row fetchone.
Definition call_commit : M St unit :=
  invoke Commit (fun _ => Done) commit.
Definition call_lastrowid : M St (option Z) :=
  invoke Lastrowid RowId lastrowid.
Definition call_cursor_close : M St unit :=
  invoke CursorClose (fun _ => Done) cursor_close.
Definition call_conn_close : M St unit :=
  invoke ConnClose (fun _ => Done) conn_close.

(** Lines 66-74: the ALTER and its fallback. *)
Definition alter : M St unit :=
  try_except (call_execute ALTER_WITH_PK)
    (fun e =>
       match e with
       | MySQLError _ text =>
           if contains "1068" text then
             print "   → Primary key already exists, trying without PRIMARY KEY clause..." ;;
             call_execute ALTER_WITHOUT_PK
           else raise e
       | OtherException _ => raise e
       end).

(** Lines 87-107: the test insert, the clean-up and the normal return. *)
Definition smoke_test (node_name : string) : M St bool :=
  print "4. Testing auto-increment with test insert..." ;;
  call_execute INSERT_TEST ;;
  call_commit ;;
  test_id <- call_lastrowid ;;
  print ("   ✓ Test insert successful! Auto-generated ID: " ++ str_id test_id) ;;
  call_execute (DELETE_TEST test_id) ;;
  call_commit ;;
  print "   ✓ Test data cleaned up" ;;
  call_cursor_close ;;
  call_conn_close ;;
  print ("✓ " ++ node_name ++ " is ready!") ;;
  ret true.

(** Lines 78-85: the verification. *)
Definition verify (node_name : string) : M St unit :=
  print "3. Verifying fix..." ;;
  call_execute SHOW_CREATE ;;
  r <- call_fetchone ;;
  create_table <- lift (second r) ;;
  found <- lift (in_field "AUTO_INCREMENT" create_table) ;;
  if (found : bool) then print ("   ✓ " ++ node_name ++ " fixed successfully!")
  else print ("   ✗ Verification failed on " ++ node_name).

(** Lines 64-107: what follows the schema check when it did not return. *)
Definition apply_fix (node_name : string) : M St bool :=
  print "2. Applying AUTO_INCREMENT fix..." ;;
  alter ;;
  call_commit ;;
  print "   ✓ ALTER TABLE executed successfully" ;;
  verify node_name ;;
  smoke_test node_name.

(** Lines 53-62: the schema check on the fetched columns. *)
Definition check_columns (node_name : string) (columns : list row) : M St bool :=
  ids <- lift (id_column columns) ;;
  match ids with
  | id_row :: _ =>
      x <- lift (extra id_row) ;;
      already <- lift (in_lower "auto_increment" x) ;;
      if (already : bool) then
        print ("   ✓ AUTO_INCREMENT already set on " ++ node_name) ;;
        call_cursor_close ;;
        call_conn_close ;;
        ret true
      else
        print ("   ✗ AUTO_INCREMENT NOT set on " ++ node_name) ;;
        apply_fix node_name
  | [] => apply_fix node_name
  end.

(** Lines 44-107: the body of the [try]. *)
Definition fix_node_body (node_name : string) (config : Config) : M St bool :=
  call_connect config ;;
  call_cursor ;;
  print "1. Checking current table structure..." ;;
  call_execute DESCRIBE_USERS ;;
  columns <- call_fetchall ;;
  check_columns node_name columns.

(** Lines 109-114: the two handlers. *)
Definition fix_node_handler (node_name : string) (e : exn) : M St bool :=
  match e with
  | MySQLError _ text =>
      print ("✗ Error on " ++ node_name ++ ": " ++ text) ;;
      ret false
  | OtherException text =>
      print ("✗ Unexpected error on " ++ node_name ++ ": " ++ text) ;;
      ret false
  end.

Definition fix_node (node_name : string) (config : Config) : M St bool :=
  print (nl ++ banner) ;;
  print ("Fixing " ++ node_name) ;;
  print banner ;;
  try_except (fix_node_body node_name config) (fix_node_handler node_name).

End FixNode.

(** ** main *)

(** The module-level dict [nodes] (lines 13-35), read from the environment.
    [int] is Python's [int()] on a variable that is set. *)
Section Environment.

Variable getenv : string -> option string.

(** Python's [int()] on a string: its value, or the exception it raises
    (ValueError, for a string that is not an integer literal). *)
Variable int : string -> exn + Z.

(** [int(os.getenv(name, 3306))]: the default is the integer 3306, which
    [int()] gives back. *)
Definition getenv_port (name : string) : exn + Z :=
  match getenv name with
  | Some s => int s
  | None => inr 3306%Z
  end.

(** Lines 13-35: the dict is built when the module is loaded, entry by
    entry; the first port that [int()] refuses raises there. *)
Definition nodes : exn + list (string * Config) :=
  match getenv_port "NODE0_PORT" with
  | inl e => inl e
  | inr port0 =>
  match getenv_port "NODE1_PORT" with
  | inl e => inl e
  | inr port1 =>
  match getenv_port "NODE2_PORT" with
  | inl e => inl e
  | inr port2 =>
      inr [ ("Central (Node 0)",
             {| host := getenv "NODE0_HOST"; port := port0;
                user := getenv "NODE0_USER"; password := getenv "NODE0_PASSWORD";
                database := getenv "NODE0_DB" |});
            ("Partition 1 (Node 1)",
             {| host := getenv "NODE1_HOST"; port := port1;
                user := getenv "NODE1_USER"; password := getenv "NODE1_PASSWORD";
                database := getenv "NODE1_DB" |});
            ("Partition 2 (Node 2)",
             {| host := getenv "NODE2_HOST"; port := port2;
                user := getenv "NODE2_USER"; password := getenv "NODE2_PASSWORD";
                database := getenv "NODE2_DB" |}) ]
  end end end.

End Environment.

(** A dict from node names to outcomes, in insertion order. *)
Definition results_t : Type := list (string * bool).

(** [results[node_name] = v]: a present key keeps its place. *)
Fixpoint dict_set (results : results_t) (node_name : string) (v : bool) : results_t :=
  match results with
  | [] => [(node_name, v)]
  | (k, w) :: rest =>
      if String.eqb k node_name then (k, v) :: rest
      else (k, w) :: dict_set rest node_name v
  end.

(** [all([config['host'], config['user'], config['password'], config['database']])] *)
Definition complete (config : Config) : bool :=
  truthy (host config) && truthy (user config) &&
  truthy (password config) && truthy (database config).

(** [sum(1 for success in results.values() if success)] *)
Definition success_count (results : results_t) : nat :=
  length (filter (fun entry => snd entry) results).

(** [len(results)] *)
Definition total_count (results : results_t) : nat := length results.

Definition str_nat (n : nat) : string := str_int (Z.of_nat n).

Definition status (success : bool) : string :=
  if success then "✓ FIXED" else "✗ FAILED".

Definition status_line (entry : string * bool) : string :=
  fst entry ++ ": " ++ status (snd entry).

Definition total_line (results : results_t) : string :=
  nl ++ "Total: " ++ str_nat (success_count results) ++ "/" ++
  str_nat (total_count results) ++ " nodes fixed successfully".

Arguments str_nat : simpl never.
Arguments status_line : simpl never.
Arguments total_line : simpl never.

Section Main.

Context {St : Type} {client : Client St}.

(** Lines 125-132: the loop over [nodes.items()]. *)
Fixpoint run_nodes (items : list (string * Config)) (results : results_t)
  : M St results_t :=
  match items with
  | [] => ret results
  | (node_name, config) :: rest =>
      if negb (complete config) then
        print (nl ++ "⚠ Skipping " ++ node_name ++ " - incomplete configuration") ;;
        run_nodes rest (dict_set results node_name false)
      else
        success <- fix_node node_name config ;;
        run_nodes rest (dict_set results node_name success)
  end.

(** Lines 142-144: one status line per entry of [results]. *)
Fixpoint print_status (results : results_t) : M St unit :=
  match results with
  | [] => ret tt
  | entry :: rest => print (status_line entry) ;; print_status rest
  end.

(** Lines 134-153: the summary. *)
Definition summary (results : results_t) : M St unit :=
  print (nl ++ banner) ;;
  print "SUMMARY" ;;
  print banner ;;
  print_status results ;;
  print (total_line results) ;;
  if Nat.eqb (success_count results) (total_count results) then
    print (nl ++ "🎉 All nodes fixed! You can now run Case #3.") ;;
    print "   Restart your application if it's running, then test again."
  else
    print (nl ++ "⚠ Some nodes failed. Check error messages above.") ;;
    print "   You may need to run the SQL commands manually.".

(** Lines 117-121: the heading. *)
Definition heading : M St unit :=
  print banner ;;
  print "DATABASE SCHEMA FIX - AUTO_INCREMENT" ;;
  print banner ;;
  print (nl ++ "This script will fix the AUTO_INCREMENT issue on all 3 nodes") ;;
  print ("that's preventing Case #3 from working." ++ nl).

Definition main (items : list (string * Config)) : M St unit :=
  heading ;;
  results <- run_nodes items [] ;;
  summary results.

(** The module run as a script: lines 13-35 build [nodes], lines 155-156
    call [main], which reads it. An exception of line 16, 23 or 30 ends the
    run before [main] is entered. *)
Definition fix_database (getenv : string -> option string)
           (int : string -> exn + Z) : M St unit :=
  match nodes getenv int with
  | inl e => raise e
  | inr items => main items
  end.

End Main.

(** ** A scripted client

    A client whose replies are fixed by a script, to run the model on
    concrete behaviours of the database. *)

Record script : Type := mkScript {
  connect_error : option exn;       (* raised by connect *)
  describe_rows : list row;         (* fetchall() after DESCRIBE *)
  alter_pk_error : option exn;      (* raised by the ALTER with PRIMARY KEY *)
  alter_error : option exn;         (* raised by the ALTER without it *)
  create_row : option row;          (* fetchone() after SHOW CREATE TABLE *)
  insert_error : option exn;        (* raised by the INSERT *)
  new_id : option Z;                (* cursor.lastrowid *)
  close_error : option exn          (* raised by conn.close() *)
}.

Definition reply_unit (e : option exn) : exn + unit :=
  match e with
  | Some x => inl x
  | None => inr tt
  end.

#[local] Instance scripted : Client script := {
  connect _ s := (s, reply_unit (connect_error s));
  cursor s := (s, inr tt);
  execute sql s :=
    (s, if String.eqb sql ALTER_WITH_PK then reply_unit (alter_pk_error s)
        else if String.eqb sql ALTER_WITHOUT_PK then reply_unit (alter_error s)
        else if String.eqb sql INSERT_TEST then reply_unit (insert_error s)
        else inr tt);
  fetchall s := (s, inr (describe_rows s));
  fetchone s := (s, inr (create_row s));
  commit s := (s, inr tt);
  lastrowid s := (s, inr (new_id s));
  cursor_close s := (s, inr tt);
  conn_close s := (s, reply_unit (close_error s))
}.

(** A DESCRIBE row of the [id] column: Field, Type, Null, Key, Default, Extra. *)
Definition id_row (key ext : string) : row :=
  [FStr "id"; FStr "int"; FStr "NO"; FStr key; FNone; FStr ext].

Definition name_row : row :=
  [FStr "firstname"; FStr "varchar(50)"; FStr "YES"; FStr ""; FNone; FStr ""].

Definition create_table_row (definition : string) : option row :=
  Some [FStr "users"; FStr definition].

(** A table whose [id] is a plain int, on a server that does the ALTER. *)
Definition broken_table : script :=
  {| connect_error := None;
     describe_rows := [id_row "" ""; name_row];
     alter_pk_error := None;
     alter_error := None;
     create_row := create_table_row "CREATE TABLE `users` (`id` int NOT NULL AUTO_INCREMENT, PRIMARY KEY (`id`))";
     insert_error := None;
     new_id := Some 7%Z;
     close_error := None |}.

(** A table that is already fixed. *)
Definition fixed_table : script :=
  {| connect_error := None;
     describe_rows := [id_row "PRI" "auto_increment"; name_row];
     alter_pk_error := None;
     alter_error := None;
     create_row := create_table_row "CREATE TABLE `users` (`id` int NOT NULL AUTO_INCREMENT, PRIMARY KEY (`id`))";
     insert_error := None;
     new_id := Some 7%Z;
     close_error := None |}.

Definition node0 : Config :=
  {| host := Some "10.0.0.1"; port := 3306; user := Some "root";
     password := Some "secret"; database := Some "stadvdb" |}.

(** A table that is already fixed, on a connection that is lost when it
    is to be closed. *)
Definition fixed_table_close_fails : script :=
  {| connect_error := None;
     describe_rows := [id_row "PRI" "auto_increment"; name_row];
     alter_pk_error := None;
     alter_error := None;
     create_row := create_table_row "CREATE TABLE `users` (`id` int NOT NULL AUTO_INCREMENT, PRIMARY KEY (`id`))";
     insert_error := None;
     new_id := Some 7%Z;
     close_error := Some (MySQLError 2055 "2055: Lost connection to MySQL server") |}.

(** A table with another primary key: the first ALTER is refused with
    error 1068, the second is done. *)
Definition other_primary_key : script :=
  {| connect_error := None;
     describe_rows := [id_row "MUL" ""; name_row];
     alter_pk_error := Some (MySQLError 1068 "1068 (42000): Multiple primary key defined");
     alter_error := None;
     create_row := create_table_row "CREATE TABLE `users` (`id` int NOT NULL AUTO_INCREMENT, KEY (`id`))";
     insert_error := None;
     new_id := Some 7%Z;
     close_error := None |}.

(** A table whose [id] has a plain index and holds the value 1068 twice:
    the first ALTER is refused with error 1062, whose text quotes the
    duplicated value, the second is done. *)
Definition duplicate_id_1068 : script :=
  {| connect_error := None;
     describe_rows := [id_row "MUL" ""; name_row];
     alter_pk_error := Some (MySQLError 1062 "1062 (23000): Duplicate entry '1068' for key 'users.PRIMARY'");
     alter_error := None;
     create_row := create_table_row "CREATE TABLE `users` (`id` int NOT NULL AUTO_INCREMENT, KEY (`id`))";
     insert_error := None;
     new_id := Some 1069%Z;
     close_error := None |}.

(** A table that is locked: the first ALTER is refused with error 1205. *)
Definition locked_table : script :=
  {| connect_error := None;
     describe_rows := [id_row "" ""; name_row];
     alter_pk_error := Some (MySQLError 1205 "1205 (HY000): Lock wait timeout exceeded; try restarting transaction");
     alter_error := None;
     create_row := None;
     insert_error := None;
     new_id := None;
     close_error := None |}.

(** A server that accepts the ALTER and leaves the column as it was: the
    table definition read back has no AUTO_INCREMENT, and DESCRIBE keeps
    reporting an empty Extra. *)
Definition unaltered_table : script :=
  {| connect_error := None;
     describe_rows := [id_row "PRI" ""; name_row];
     alter_pk_error := None;
     alter_error := None;
     create_row := create_table_row "CREATE TABLE `users` (`id` int NOT NULL, PRIMARY KEY (`id`))";
     insert_error := None;
     new_id := Some 0%Z;
     close_error := None |}.

(** A table without an [id] column. *)
Definition no_id_table : script :=
  {| connect_error := None;
     describe_rows := [name_row];
     alter_pk_error := Some (MySQLError 1054 "1054 (42S22): Unknown column 'id' in 'users'");
     alter_error := None;
     create_row := None;
     insert_error := None;
     new_id := None;
     close_error := None |}.

(** A client that hands over DESCRIBE rows of two fields only. *)
Definition short_rows : script :=
  {| connect_error := None;
     describe_rows := [[FStr "id"; FStr "int"]; [FStr "firstname"; FStr "varchar(50)"]];
     alter_pk_error := None;
     alter_error := None;
     create_row := create_table_row "CREATE TABLE `users` (`id` int NOT NULL AUTO_INCREMENT, PRIMARY KEY (`id`))";
     insert_error := None;
     new_id := Some 7%Z;
     close_error := None |}.

Definition node1_no_password : Config :=
  {| host := Some "10.0.0.2"; port := 3306; user := Some "root";
     password := None; database := Some "stadvdb" |}.

(** ** Reading traces *)

(** What a run did after the first event that satisfies [p]. *)
Fixpoint after (p : event -> bool) (t : trace) : trace :=
  match t with
  | [] => []
  | e :: t' => if p e then t' else after p t'
  end.

Definition is_fetchall (e : event) : bool :=
  match e with Call Fetchall _ => true | _ => false end.

Definition is_fetchone (e : event) : bool :=
  match e with Call Fetchone _ => true | _ => false end.

Definition is_alter_with_pk (e : event) : bool :=
  match e with
  | Call (Execute sql) _ => String.eqb sql ALTER_WITH_PK
  | _ => false
  end.

(** The rows [fetchall()] handed over, if the run got there. *)
Fixpoint fetched (t : trace) : option (list row) :=
  match t with
  | [] => None
  | Call Fetchall (Rows columns) :: _ => Some columns
  | _ :: t' => fetched t'
  end.

(** The row [fetchone()] handed over, if the run got there. *)
Fixpoint created (t : trace) : option (option row) :=
  match t with
  | [] => None
  | Call Fetchone (Row r) :: _ => Some r
  | _ :: t' => created t'
  end.

(** The exception that refused the ALTER with PRIMARY KEY, if one did. *)
Fixpoint refused (t : trace) : option exn :=
  match t with
  | [] => None
  | Call (Execute sql) r :: t' =>
      if String.eqb sql ALTER_WITH_PK then
        match r with
        | Raised e => Some e
        | _ => None
        end
      else refused t'
  | _ :: t' => refused t'
  end.

(** The column [id] reports auto-increment in the DESCRIBE rows: the test
    of lines 53-56 on the row it picks. *)
Definition reports_auto_increment (columns : list row) : bool :=
  match id_column columns with
  | inr (first :: _) =>
      match extra first with
      | inr x => match in_lower "auto_increment" x with inr b => b | inl _ => false end
      | inl _ => false
      end
  | _ => false
  end.

(** The client [c] with the table definition that SHOW CREATE TABLE hands
    over replaced by [definition]; everything else is as in [c]. *)
Definition with_definition {St} (c : Client St) (definition : string) : Client St :=
  {| connect := @connect St c;
     cursor := @cursor St c;
     execute := @execute St c;
     fetchall := @fetchall St c;
     fetchone := fun st =>
       match @fetchone St c st with
       | (st1, inr _) => (st1, inr (Some [FStr "users"; FStr definition]))
       | (st1, inl e) => (st1, inl e)
       end;
     commit := @commit St c;
     lastrowid := @lastrowid St c;
     cursor_close := @cursor_close St c;
     conn_close := @conn_close St c |}.

(** ** The statements as the specification lists them *)

Definition SPEC_INSERT : string :=
  "INSERT INTO users (firstname, lastname, city, country, createdAt, updatedAt) VALUES ('TestFix','User','TestCity','USA', NOW(), NOW())".

(** The six statements of the specification's list, the last one for any
    generated id. *)
Definition spec_statement (sql : string) : Prop :=
  sql = "DESCRIBE users" \/
  sql = "ALTER TABLE users MODIFY COLUMN id INT AUTO_INCREMENT PRIMARY KEY" \/
  sql = "ALTER TABLE users MODIFY COLUMN id INT AUTO_INCREMENT" \/
  sql = "SHOW CREATE TABLE users" \/
  sql = SPEC_INSERT \/
  exists test_id, sql = "DELETE FROM users WHERE id = " ++ str_id test_id.

(** The statements as the code writes them. *)
Definition code_statement (sql : string) : Prop :=
  sql = DESCRIBE_USERS \/
  sql = ALTER_WITH_PK \/
  sql = ALTER_WITHOUT_PK \/
  sql = SHOW_CREATE \/
  sql = INSERT_TEST \/
  exists test_id, sql = DELETE_TEST test_id.

(** A statement without its blanks and line breaks. *)
Fixpoint squeeze (s : string) : string :=
  match s with
  | EmptyString => EmptyString
  | String c rest =>
      if (Ascii.eqb c " " || Ascii.eqb c (ascii_of_nat 10))%bool then squeeze rest
      else String c (squeeze rest)
  end.

(** ** The run of [fix_node], in parts *)

Section Parts.

Context {St : Type} {client : Client St}.

(** The body of the [try], under its handlers. *)
Definition guarded (node_name : string) (m : M St bool) : M St bool :=
  try_except m (fix_node_handler node_name).

Definition opening (node_name : string) : trace :=
  [Print (nl ++ banner); Print ("Fixing " ++ node_name); Print banner].

(** What the run did up to and including [fetchall()]. *)
Definition prelude (node_name : string) (config : Config) (columns : list row) : trace :=
  (opening node_name ++
   [Call (Connect config) Done; Call Cursor Done;
    Print "1. Checking current table structure...";
    Call (Execute DESCRIBE_USERS) Done; Call Fetchall (Rows columns)])%list.

End Parts.

(** A property of every event of every run of [m]. *)
Definition always {St A} (P : event -> Prop) (m : M St A) : Prop :=
  forall st, Forall P (trace_of (m st)).

(** ** Sentences of the specification that the code does not meet, as worded *)

(** An [id] row that reports auto-increment always gives success. *)
Definition already_fixed_always_succeeds : Prop :=
  forall (St : Type) (client : Client St) (node_name : string)
         (config : Config) (st : St) (columns : list row)
         (first : row) (rest : list row) (x : string),
    fetched (trace_of (fix_node node_name config st)) = Some columns ->
    id_column columns = inr (first :: rest) ->
    nth_error first 5 = Some (FStr x) ->
    contains "auto_increment" (lower x) = true ->
    value_of (fix_node node_name config st) = inr true /\
    statements (trace_of (fix_node node_name config st)) = [DESCRIBE_USERS].

(** Error 1068 takes the fallback, every other database error fails the
    node before any test insert. *)
Definition alter_errors_told_by_number : Prop :=
  forall (St : Type) (client : Client St) (node_name : string)
         (config : Config) (st : St) (errno : Z) (text : string),
    refused (trace_of (fix_node node_name config st)) = Some (MySQLError errno text) ->
    (errno = 1068%Z ->
     In ALTER_WITHOUT_PK (statements (trace_of (fix_node node_name config st)))) /\
    (errno <> 1068%Z ->
     value_of (fix_node node_name config st) = inr false /\
     ~ In INSERT_TEST (statements (trace_of (fix_node node_name config st)))).

(** Every statement sent is one of the specification's list. *)
Definition statements_as_listed : Prop :=
  forall (St : Type) (client : Client St) (node_name : string)
         (config : Config) (st : St),
    Forall spec_statement (statements (trace_of (fix_node node_name config st))).

(** Two runs that end in the same client state with the same value,
    having sent the same statements. *)
Definition same_outcome {St A} (x y : St * trace * (exn + A)) : Prop :=
  state_of x = state_of y /\
  value_of x = value_of y /\
  statements (trace_of x) = statements (trace_of y).

(** An event that is not a [fetchone()]. *)
Definition not_fetchone (e : event) : Prop := is_fetchone e = false.

(** What [fix_node node_name config] may do: connect with [config] only,
    send the statements of the code only, and print no "Fixing" line but
    its own. *)
Definition fix_node_event (node_name : string) (config : Config) (e : event) : Prop :=
  match e with
  | Call (Connect c) _ => c = config
  | Call (Execute sql) _ => code_statement sql
  | Call _ _ => True
  | Print s => forall other, s = "Fixing " ++ other -> other = node_name
  end.

(** What the loop over [items] may do: connect and announce a fix for
    items with a complete configuration only. *)
Definition loop_event (items : list (string * Config)) (e : event) : Prop :=
  match e with
  | Call (Connect c) _ => exists name, In (name, c) items /\ complete c = true
  | Call _ _ => True
  | Print s =>
      forall other, s = "Fixing " ++ other ->
                    exists c, In (other, c) items /\ complete c = true
  end.

(** [results[node_name] = v] for each pair, in order. *)
Definition record_all (results : results_t) (outcomes : list (string * bool)) : results_t :=
  fold_left (fun d entry => dict_set d (fst entry) (snd entry)) outcomes results.

(** An environment in which node 1 has no password. *)
Definition example_env (name : string) : option string :=
  if String.eqb name "NODE0_HOST" then Some "10.0.0.1"
  else if String.eqb name "NODE1_HOST" then Some "10.0.0.2"
  else if String.eqb name "NODE2_HOST" then Some "10.0.0.3"
  else if String.eqb name "NODE0_USER" then Some "root"
  else if String.eqb name "NODE1_USER" then Some "root"
  else if String.eqb name "NODE2_USER" then Some "root"
  else if String.eqb name "NODE0_PASSWORD" then Some "secret"
  else if String.eqb name "NODE2_PASSWORD" then Some "secret"
  else if String.eqb name "NODE0_DB" then Some "stadvdb"
  else if String.eqb name "NODE1_DB" then Some "stadvdb"
  else if String.eqb name "NODE2_DB" then Some "stadvdb"
  else None.

(** [nodes] in [example_env], which sets no port. *)
Definition example_nodes : list (string * Config) :=
  match nodes example_env (fun _ => inr 3306%Z) with
  | inr items => items
  | inl _ => []
  end.

(** ** More readers of traces *)

(** The line a handler of [fix_node] prints for [e] (lines 110 and 113). *)
Definition error_line (node_name : string) (e : exn) : string :=
  match e with
  | MySQLError _ text => "✗ Error on " ++ node_name ++ ": " ++ text
  | OtherException text => "✗ Unexpected error on " ++ node_name ++ ": " ++ text
  end.

(** A client call that raised and that the inner handler of lines 69-74
    does not take up: any raise but a database error on the ALTER with
    PRIMARY KEY whose text contains 1068. *)
Definition unrecovered (e : event) : bool :=
  match e with
  | Call (Execute sql) (Raised (MySQLError _ text)) =>
      negb (String.eqb sql ALTER_WITH_PK && contains "1068" text)
  | Call _ (Raised _) => true
  | _ => false
  end.

Definition is_lastrowid (e : event) : bool :=
  match e with Call Lastrowid _ => true | _ => false end.

(** What [cursor.lastrowid] gave, if the run got there. *)
Fixpoint rowid (t : trace) : option (option Z) :=
  match t with
  | [] => None
  | Call Lastrowid (RowId i) :: _ => Some i
  | _ :: t' => rowid t'
  end.

(** [a] is a beginning of [b]. *)
Definition begins {A} (a b : list A) : Prop := exists rest, b = (a ++ rest)%list.

(** An event that is not a connection attempt. *)
Definition not_connect (e : event) : Prop :=
  match e with
  | Call (Connect _) _ => False
  | _ => True
  end.

(** The last two lines of the summary (lines 148-153). *)
Definition farewell_lines (all_fixed : bool) : list string :=
  if all_fixed then
    [nl ++ "🎉 All nodes fixed! You can now run Case #3.";
     "   Restart your application if it's running, then test again."]
  else
    [nl ++ "⚠ Some nodes failed. Check error messages above.";
     "   You may need to run the SQL commands manually."].

(** A configuration whose host is set to the empty string. *)
Definition node_empty_host : Config :=
  {| host := Some ""; port := 3306; user := Some "root";
     password := Some "secret"; database := Some "stadvdb" |}.

(** Whether the four variables of node [n] are set and not empty. *)
Definition env_complete (getenv : string -> option string) (n : string) : bool :=
  truthy (getenv ("NODE" ++ n ++ "_HOST")) &&
  truthy (getenv ("NODE" ++ n ++ "_USER")) &&
  truthy (getenv ("NODE" ++ n ++ "_PASSWORD")) &&
  truthy (getenv ("NODE" ++ n ++ "_DB")).

(** Whether the port of node [n] is unset or a string [int()] takes. *)
Definition port_read (getenv : string -> option string)
           (int : string -> exn + Z) (n : string) : bool :=
  match getenv_port getenv int ("NODE" ++ n ++ "_PORT") with
  | inr _ => true
  | inl _ => false
  end.

(** [example_env] with NODE1_PORT set to a word. *)
Definition word_port_env (name : string) : option string :=
  if String.eqb name "NODE1_PORT" then Some "abc" else example_env name.

(** [int()] on the strings of the examples. *)
Definition example_int (s : string) : exn + Z :=
  if String.eqb s "3306" then inr 3306%Z
  else inl (OtherException
              ("invalid literal for int() with base 10: '" ++ s ++ "'")).

(** A client that hands over [None] for the Extra of the [id] column. *)
Definition null_extra : script :=
  {| connect_error := None;
     describe_rows := [[FStr "id"; FStr "int"; FStr "NO"; FStr ""; FNone; FNone]];
     alter_pk_error := None;
     alter_error := None;
     create_row := None;
     insert_error := None;
     new_id := None;
     close_error := None |}.

(** A server that does the ALTER and then has no row for SHOW CREATE
    TABLE. *)
Definition no_definition : script :=
  {| connect_error := None;
     describe_rows := [id_row "" ""; name_row];
     alter_pk_error := None;
     alter_error := None;
     create_row := None;
     insert_error := None;
     new_id := None;
     close_error := None |}.

(** A server on which the INSERT generates no id. *)
Definition no_rowid : script :=
  {| connect_error := None;
     describe_rows := [id_row "" ""; name_row];
     alter_pk_error := None;
     alter_error := None;
     create_row := create_table_row "CREATE TABLE `users` (`id` int NOT NULL AUTO_INCREMENT)";
     insert_error := None;
     new_id := None;
     close_error := None |}.

(** * Proofs *)

#[local] Arguments String.append : simpl never.

(** ** Equations of runs *)

Section RunEquations.

Context {St : Type}.

Lemma prepend_nil {A} (x : St * trace * (exn + A)) : prepend [] x = x.
Proof. destruct x as [[s t] r]. reflexivity. Qed.

Lemma prepend_prepend {A} (a b : trace) (x : St * trace * (exn + A)) :
  prepend a (prepend b x) = prepend (a ++ b)%list x.
Proof. destruct x as [[s t] r]. simpl. now rewrite app_assoc. Qed.

Lemma trace_of_prepend {A} (pre : trace) (x : St * trace * (exn + A)) :
  trace_of (prepend pre x) = (pre ++ trace_of x)%list.
Proof. destruct x as [[s t] r]. reflexivity. Qed.

Lemma value_of_prepend {A} (pre : trace) (x : St * trace * (exn + A)) :
  value_of (prepend pre x) = value_of x.
Proof. destruct x as [[s t] r]. reflexivity. Qed.

Lemma state_of_prepend {A} (pre : trace) (x : St * trace * (exn + A)) :
  state_of (prepend pre x) = state_of x.
Proof. destruct x as [[s t] r]. reflexivity. Qed.

Lemma bind_print {B} (s : string) (k : unit -> M St B) (st : St) :
  bind (print s) k st = prepend [Print s] (k tt st).
Proof. reflexivity. Qed.

(** A handler around a sequence is the handler around its rest, once the
    head has returned. *)
Lemma try_bind {A B} (m : M St A) (k : A -> M St B) (h : exn -> M St B) (st : St) :
  try_except (bind m k) h st =
  match m st with
  | (st1, t1, inl e) => prepend t1 (h e st1)
  | (st1, t1, inr a) => prepend t1 (try_except (k a) h st1)
  end.
Proof.
  unfold try_except, bind.
  destruct (m st) as [[st1 t1] [e | a]]; [reflexivity |].
  destruct (k a st1) as [[st2 t2] [e | b]]; simpl; [| reflexivity].
  now rewrite prepend_prepend.
Qed.

Lemma try_print {B} (s : string) (k : unit -> M St B) (h : exn -> M St B) (st : St) :
  try_except (bind (print s) k) h st = prepend [Print s] (try_except (k tt) h st).
Proof. now rewrite try_bind. Qed.

Lemma try_lift {A B} (r : exn + A) (k : A -> M St B) (h : exn -> M St B) (st : St) :
  try_except (bind (lift r) k) h st =
  match r with
  | inl e => h e st
  | inr a => try_except (k a) h st
  end.
Proof.
  rewrite try_bind. unfold lift. destruct r; now rewrite prepend_nil.
Qed.

Lemma try_invoke {A B} (c : call) (rep : A -> reply) (op : St -> St * (exn + A))
      (k : A -> M St B) (h : exn -> M St B) (st : St) :
  try_except (bind (invoke c rep op) k) h st =
  match op st with
  | (st1, inl e) => prepend [Call c (Raised e)] (h e st1)
  | (st1, inr a) => prepend [Call c (rep a)] (try_except (k a) h st1)
  end.
Proof.
  rewrite try_bind. unfold invoke. now destruct (op st) as [st1 [e | a]].
Qed.

Lemma try_ret {A} (a : A) (h : exn -> M St A) (st : St) :
  try_except (ret a) h st = (st, [], inr a).
Proof. reflexivity. Qed.

Lemma bind_assoc {A B D} (m : M St A) (k : A -> M St B) (k' : B -> M St D) (st : St) :
  bind (bind m k) k' st = bind m (fun a => bind (k a) k') st.
Proof.
  unfold bind.
  destruct (m st) as [[st1 t1] [e | a]]; [reflexivity |].
  destruct (k a st1) as [[st2 t2] [e | b]]; simpl; [reflexivity |].
  now rewrite prepend_prepend.
Qed.

End RunEquations.

(** ** Facts about the expressions of the schema check *)

Lemma extra_short (first : row) :
  (length first < 6)%nat -> extra first = inr (FStr "").
Proof.
  intros Hlen. unfold extra.
  destruct (5 <? length first)%nat eqn:E; [| reflexivity].
  apply Nat.ltb_lt in E. lia.
Qed.

Lemma extra_sixth (first : row) (f : field) :
  nth_error first 5 = Some f -> extra first = inr f.
Proof.
  intros Hnth. unfold extra, index.
  assert (5 < length first)%nat as Hlen
      by (apply nth_error_Some; congruence).
  apply Nat.ltb_lt in Hlen. now rewrite Hlen, Hnth.
Qed.

(** ** The run of [fix_node], block by block *)

Section Blocks.

Context {St : Type} {client : Client St}.

(** Both handlers print one line and return [False]. *)
Lemma fix_node_handler_run (node_name : string) (e : exn) (st : St) :
  exists line, fix_node_handler node_name e st = (st, [Print line], inr false).
Proof. destruct e; eexists; reflexivity. Qed.

Lemma value_of_handler (node_name : string) (e : exn) (st : St) :
  value_of (fix_node_handler node_name e st) = inr false.
Proof. now destruct e. Qed.

Lemma statements_handler (node_name : string) (e : exn) (st : St) :
  statements (trace_of (fix_node_handler node_name e st)) = [].
Proof. now destruct e. Qed.

Lemma fix_node_guarded (node_name : string) (config : Config) (st : St) :
  fix_node node_name config st =
  prepend (opening node_name) (guarded node_name (fix_node_body node_name config) st).
Proof.
  unfold fix_node. now rewrite !bind_print, !prepend_prepend.
Qed.

(** A run that fetched [columns] did the prelude and then checked them. *)
Lemma fix_node_fetched (node_name : string) (config : Config) (st : St)
      (columns : list row) :
  fetched (trace_of (fix_node node_name config st)) = Some columns ->
  exists st4,
    fix_node node_name config st =
    prepend (prelude node_name config columns)
            (guarded node_name (check_columns node_name columns) st4).
Proof.
  rewrite fix_node_guarded. unfold guarded, fix_node_body.
  unfold call_connect, call_cursor, call_execute, call_fetchall.
  rewrite try_invoke.
  destruct (connect config st) as [st1 [e | []]].
  { destruct (fix_node_handler_run node_name e st1) as [line ->]. discriminate. }
  rewrite try_invoke.
  destruct (cursor st1) as [st2 [e | []]].
  { destruct (fix_node_handler_run node_name e st2) as [line ->]. discriminate. }
  rewrite try_print, try_invoke.
  destruct (execute DESCRIBE_USERS st2) as [st3 [e | []]].
  { destruct (fix_node_handler_run node_name e st3) as [line ->]. discriminate. }
  rewrite try_invoke.
  destruct (fetchall st3) as [st4 [e | columns']].
  { destruct (fix_node_handler_run node_name e st4) as [line ->]. discriminate. }
  rewrite !prepend_prepend, trace_of_prepend. simpl.
  intros [= ->]. now exists st4.
Qed.

End Blocks.

Section Check.

Context {St : Type} {client : Client St}.

(** The three ways out of the schema check that do not raise. *)
Lemma check_already_set (node_name : string) (columns : list row) (st : St)
      (first : row) (rest : list row) (x : field) :
  id_column columns = inr (first :: rest) ->
  extra first = inr x ->
  in_lower "auto_increment" x = inr true ->
  guarded node_name (check_columns node_name columns) st =
  prepend [Print ("   ✓ AUTO_INCREMENT already set on " ++ node_name)]
          (guarded node_name (call_cursor_close ;; call_conn_close ;; ret true) st).
Proof.
  intros Hid Hextra Hin. unfold guarded, check_columns.
  rewrite try_lift, Hid, try_lift, Hextra, try_lift, Hin.
  now rewrite try_print.
Qed.

Lemma check_not_set (node_name : string) (columns : list row) (st : St)
      (first : row) (rest : list row) (x : field) :
  id_column columns = inr (first :: rest) ->
  extra first = inr x ->
  in_lower "auto_increment" x = inr false ->
  guarded node_name (check_columns node_name columns) st =
  prepend [Print ("   ✗ AUTO_INCREMENT NOT set on " ++ node_name)]
          (guarded node_name (apply_fix node_name) st).
Proof.
  intros Hid Hextra Hin. unfold guarded, check_columns.
  rewrite try_lift, Hid, try_lift, Hextra, try_lift, Hin.
  now rewrite try_print.
Qed.

Lemma check_no_id (node_name : string) (columns : list row) (st : St) :
  id_column columns = inr [] ->
  guarded node_name (check_columns node_name columns) st =
  guarded node_name (apply_fix node_name) st.
Proof.
  intros Hid. unfold guarded, check_columns. now rewrite try_lift, Hid.
Qed.

(** The ALTER and its fallback, by the reply to the first statement. *)
Lemma alter_run (st : St) :
  alter st =
  match execute ALTER_WITH_PK st with
  | (st1, inr _) => (st1, [Call (Execute ALTER_WITH_PK) Done], inr tt)
  | (st1, inl (MySQLError errno text)) =>
      if contains "1068" text then
        prepend [Call (Execute ALTER_WITH_PK) (Raised (MySQLError errno text));
                 Print "   → Primary key already exists, trying without PRIMARY KEY clause..."]
                (call_execute ALTER_WITHOUT_PK st1)
      else (st1, [Call (Execute ALTER_WITH_PK) (Raised (MySQLError errno text))],
            inl (MySQLError errno text))
  | (st1, inl (OtherException text)) =>
      (st1, [Call (Execute ALTER_WITH_PK) (Raised (OtherException text))],
       inl (OtherException text))
  end.
Proof.
  unfold alter, try_except, call_execute at 1, invoke.
  destruct (execute ALTER_WITH_PK st) as [st1 [[errno text | text] | []]];
    simpl; try reflexivity.
  destruct (contains "1068" text); simpl; [| reflexivity].
  rewrite bind_print, prepend_prepend. reflexivity.
Qed.

(** The ALTER with PRIMARY KEY is the first thing [apply_fix] sends. *)
Lemma alter_first (st : St) :
  exists reply more,
    trace_of (alter st) = Call (Execute ALTER_WITH_PK) reply :: more.
Proof.
  rewrite alter_run.
  destruct (execute ALTER_WITH_PK st) as [st1 [[errno text | text] | []]];
    [destruct (contains "1068" text) | |];
    rewrite ?trace_of_prepend; simpl; eauto.
Qed.

Lemma apply_fix_first (node_name : string) (st : St) :
  exists reply more,
    trace_of (guarded node_name (apply_fix node_name) st) =
    Print "2. Applying AUTO_INCREMENT fix..." ::
    Call (Execute ALTER_WITH_PK) reply :: more.
Proof.
  unfold guarded, apply_fix. rewrite try_print, trace_of_prepend, try_bind.
  destruct (alter_first st) as (reply & more & Halter).
  destruct (alter st) as [[st1 t1] [e | []]]; simpl in Halter; subst t1;
    rewrite trace_of_prepend; simpl; eauto.
Qed.

End Check.

(** ** C9, C10 *)

(** C9. When the DESCRIBE rows contain no row named [id] (the selection of
    line 53 is empty), [fix_node] prints neither verdict of the
    already-fixed check: the next thing it does after [fetchall()] is to
    announce the fix and send the ALTER with PRIMARY KEY. *)
Theorem no_id_row_goes_to_alter :
  forall (St : Type) (client : Client St) (node_name : string)
         (config : Config) (st : St) (columns : list row),
    fetched (trace_of (fix_node node_name config st)) = Some columns ->
    id_column columns = inr [] ->
    exists reply more,
      after is_fetchall (trace_of (fix_node node_name config st)) =
      Print "2. Applying AUTO_INCREMENT fix..." ::
      Call (Execute ALTER_WITH_PK) reply :: more.
Proof.
  intros St client node_name config st columns Hfetched Hid.
  destruct (fix_node_fetched _ _ _ _ Hfetched) as [st4 ->].
  rewrite trace_of_prepend. simpl.
  rewrite check_no_id by assumption.
  apply apply_fix_first.
Qed.

Lemma no_id_row_goes_to_alter_witness :
  exists reply more,
    after is_fetchall (trace_of (fix_node "Central (Node 0)" node0 no_id_table)) =
    Print "2. Applying AUTO_INCREMENT fix..." ::
    Call (Execute ALTER_WITH_PK) reply :: more.
Proof.
  apply (no_id_row_goes_to_alter script scripted "Central (Node 0)" node0
           no_id_table [name_row]); reflexivity.
Defined.

(** C10. A row of the [id] column with fewer than six fields has the empty
    string for its extra attribute, not an index error: the column counts
    as not auto-increment, and the run goes on to the ALTER. *)
Theorem short_id_row_is_not_an_error :
  forall (St : Type) (client : Client St) (node_name : string)
         (config : Config) (st : St) (columns : list row)
         (first : row) (rest : list row),
    fetched (trace_of (fix_node node_name config st)) = Some columns ->
    id_column columns = inr (first :: rest) ->
    (length first < 6)%nat ->
    extra first = inr (FStr "") /\
    exists reply more,
      after is_fetchall (trace_of (fix_node node_name config st)) =
      Print ("   ✗ AUTO_INCREMENT NOT set on " ++ node_name) ::
      Print "2. Applying AUTO_INCREMENT fix..." ::
      Call (Execute ALTER_WITH_PK) reply :: more.
Proof.
  intros St client node_name config st columns first rest Hfetched Hid Hlen.
  pose proof (extra_short first Hlen) as Hextra.
  split; [assumption |].
  destruct (fix_node_fetched _ _ _ _ Hfetched) as [st4 ->].
  rewrite trace_of_prepend. simpl.
  rewrite (check_not_set _ _ _ _ _ _ Hid Hextra) by reflexivity.
  rewrite trace_of_prepend. simpl.
  destruct (apply_fix_first node_name st4) as (reply & more & ->).
  eauto.
Qed.

Lemma short_id_row_is_not_an_error_witness :
  extra [FStr "id"; FStr "int"] = inr (FStr "") /\
  exists reply more,
    after is_fetchall (trace_of (fix_node "Central (Node 0)" node0 short_rows)) =
    Print ("   ✗ AUTO_INCREMENT NOT set on " ++ "Central (Node 0)") ::
    Print "2. Applying AUTO_INCREMENT fix..." ::
    Call (Execute ALTER_WITH_PK) reply :: more.
Proof.
  apply (short_id_row_is_not_an_error script scripted "Central (Node 0)" node0
           short_rows (describe_rows short_rows) [FStr "id"; FStr "int"] []);
    [reflexivity | reflexivity | simpl; lia].
Defined.

(** ** Traces, piecewise *)

Lemma statements_app (a b : trace) :
  statements (a ++ b)%list = (statements a ++ statements b)%list.
Proof.
  induction a as [| e a IH]; [reflexivity |].
  destruct e as [[] r | s]; simpl; rewrite ?IH; reflexivity.
Qed.

Lemma in_trace_prepend {St A} (e : event) (pre : trace) (x : St * trace * (exn + A)) :
  In e (trace_of x) -> In e (trace_of (prepend pre x)).
Proof.
  intros Hin. rewrite trace_of_prepend. apply in_or_app. now right.
Qed.

(** ** C2 *)

Section Closing.

Context {St : Type} {client : Client St}.

(** Lines 58-60 under the handlers: success needs both closes to return. *)
Lemma closing_run (node_name : string) (st : St) :
  let run := guarded node_name (call_cursor_close ;; call_conn_close ;; ret true) st in
  statements (trace_of run) = [] /\
  ((forall e, ~ In (Call CursorClose (Raised e)) (trace_of run)) ->
   (forall e, ~ In (Call ConnClose (Raised e)) (trace_of run)) ->
   value_of run = inr true).
Proof.
  unfold guarded, call_cursor_close, call_conn_close. cbv zeta.
  rewrite try_invoke.
  destruct (cursor_close st) as [st1 [e | []]].
  { destruct (fix_node_handler_run node_name e st1) as [line ->]. simpl.
    split; [reflexivity |]. intros Hcursor _. destruct (Hcursor e). now left. }
  rewrite try_invoke.
  destruct (conn_close st1) as [st2 [e | []]].
  { destruct (fix_node_handler_run node_name e st2) as [line ->]. simpl.
    split; [reflexivity |]. intros _ Hconn. destruct (Hconn e). right. now left. }
  simpl. split; reflexivity.
Qed.

End Closing.

(** C2, as amended. When the first DESCRIBE row named [id] has a string
    for its extra field that contains auto_increment in any letter case,
    [fix_node] sends no statement but the DESCRIBE, so no ALTER, INSERT
    or DELETE; it returns success when closing the cursor and closing the
    connection do not raise. *)
Theorem already_fixed_no_mutation :
  forall (St : Type) (client : Client St) (node_name : string)
         (config : Config) (st : St) (columns : list row)
         (first : row) (rest : list row) (x : string),
    fetched (trace_of (fix_node node_name config st)) = Some columns ->
    id_column columns = inr (first :: rest) ->
    nth_error first 5 = Some (FStr x) ->
    contains "auto_increment" (lower x) = true ->
    statements (trace_of (fix_node node_name config st)) = [DESCRIBE_USERS] /\
    ((forall e, ~ In (Call CursorClose (Raised e))
                     (trace_of (fix_node node_name config st))) ->
     (forall e, ~ In (Call ConnClose (Raised e))
                     (trace_of (fix_node node_name config st))) ->
     value_of (fix_node node_name config st) = inr true).
Proof.
  intros St client node_name config st columns first rest x
         Hfetched Hid Hsixth Hauto.
  destruct (fix_node_fetched _ _ _ _ Hfetched) as [st4 ->].
  rewrite (check_already_set node_name columns st4 first rest (FStr x));
    [| assumption | now apply extra_sixth | simpl; now rewrite Hauto].
  rewrite prepend_prepend.
  destruct (closing_run node_name st4) as [Hsent Hvalue]. cbv zeta in *.
  split.
  - rewrite trace_of_prepend, statements_app, Hsent. reflexivity.
  - intros Hcursor Hconn. rewrite value_of_prepend. apply Hvalue.
    + intros e Hin. apply (Hcursor e). now apply in_trace_prepend.
    + intros e Hin. apply (Hconn e). now apply in_trace_prepend.
Qed.

Lemma already_fixed_no_mutation_witness :
  statements (trace_of (fix_node "Central (Node 0)" node0 fixed_table)) =
  [DESCRIBE_USERS] /\
  ((forall e, ~ In (Call CursorClose (Raised e))
                   (trace_of (fix_node "Central (Node 0)" node0 fixed_table))) ->
   (forall e, ~ In (Call ConnClose (Raised e))
                   (trace_of (fix_node "Central (Node 0)" node0 fixed_table))) ->
   value_of (fix_node "Central (Node 0)" node0 fixed_table) = inr true).
Proof.
  apply (already_fixed_no_mutation script scripted "Central (Node 0)" node0
           fixed_table (describe_rows fixed_table)
           (id_row "PRI" "auto_increment") [] "auto_increment");
    reflexivity.
Defined.

(** C2, as worded, fails: on a table that is already fixed, a connection
    that raises when it is closed turns the outcome into a failure. *)
Lemma already_fixed_close_raises : ~ already_fixed_always_succeeds.
Proof.
  intros Hclaim.
  destruct (Hclaim script scripted "Central (Node 0)" node0
              fixed_table_close_fails (describe_rows fixed_table_close_fails)
              (id_row "PRI" "auto_increment") [] "auto_increment")
    as [Hvalue _]; try reflexivity.
  discriminate Hvalue.
Qed.

(** ** C4 *)

Section Applying.

Context {St : Type} {client : Client St}.

(** A run either gets to the fix, after a check that printed at most
    its "NOT set" verdict, or ends without sending any ALTER and without
    reading the table definition. *)
Lemma fix_node_applies (node_name : string) (config : Config) (st : St) :
  (exists st5 columns verdict,
      (verdict = [] \/
       verdict = [Print ("   ✗ AUTO_INCREMENT NOT set on " ++ node_name)]) /\
      fix_node node_name config st =
      prepend (prelude node_name config columns ++ verdict)%list
              (guarded node_name (apply_fix node_name) st5)) \/
  (refused (trace_of (fix_node node_name config st)) = None /\
   created (trace_of (fix_node node_name config st)) = None).
Proof.
  rewrite fix_node_guarded. unfold guarded, fix_node_body.
  unfold call_connect, call_cursor, call_execute, call_fetchall.
  rewrite try_invoke.
  destruct (connect config st) as [st1 [e | []]].
  { destruct (fix_node_handler_run node_name e st1) as [line ->]. now right. }
  rewrite try_invoke.
  destruct (cursor st1) as [st2 [e | []]].
  { destruct (fix_node_handler_run node_name e st2) as [line ->]. now right. }
  rewrite try_print, try_invoke.
  destruct (execute DESCRIBE_USERS st2) as [st3 [e | []]].
  { destruct (fix_node_handler_run node_name e st3) as [line ->]. now right. }
  rewrite try_invoke.
  destruct (fetchall st3) as [st4 [e | columns]].
  { destruct (fix_node_handler_run node_name e st4) as [line ->]. now right. }
  rewrite !prepend_prepend.
  change (try_except (check_columns node_name columns) (fix_node_handler node_name))
    with (guarded node_name (check_columns node_name columns)).
  destruct (id_column columns) as [e | [| first rest]] eqn:Hid.
  - right. unfold guarded, check_columns. rewrite try_lift, Hid.
    destruct (fix_node_handler_run node_name e st4) as [line ->]. now split.
  - left. exists st4, columns, []. split; [now left |].
    rewrite check_no_id by assumption. now rewrite app_nil_r.
  - destruct (extra first) as [e | x] eqn:Hextra.
    { right. unfold guarded, check_columns.
      rewrite try_lift, Hid, try_lift, Hextra.
      destruct (fix_node_handler_run node_name e st4) as [line ->]. now split. }
    destruct (in_lower "auto_increment" x) as [e | []] eqn:Hin.
    + right. unfold guarded, check_columns.
      rewrite try_lift, Hid, try_lift, Hextra, try_lift, Hin.
      destruct (fix_node_handler_run node_name e st4) as [line ->]. now split.
    + right. rewrite (check_already_set _ _ _ _ _ _ Hid Hextra Hin).
      unfold guarded, call_cursor_close, call_conn_close.
      rewrite try_invoke.
      destruct (cursor_close st4) as [st5 [e | []]].
      { destruct (fix_node_handler_run node_name e st5) as [line ->]. now split. }
      rewrite try_invoke.
      destruct (conn_close st5) as [st6 [e | []]].
      { destruct (fix_node_handler_run node_name e st6) as [line ->]. now split. }
      now split.
    + left. exists st4, columns,
        [Print ("   ✗ AUTO_INCREMENT NOT set on " ++ node_name)].
      split; [now right |].
      rewrite (check_not_set _ _ _ _ _ _ Hid Hextra Hin).
      now rewrite prepend_prepend.
Qed.

(** The fix, once the first ALTER is refused by a database error. *)
Lemma apply_fix_refused (node_name : string) (st : St) (errno : Z) (text : string) :
  let run := guarded node_name (apply_fix node_name) st in
  refused (trace_of run) = Some (MySQLError errno text) ->
  (contains "1068" text = true ->
   exists reply more,
     after is_alter_with_pk (trace_of run) =
     Print "   → Primary key already exists, trying without PRIMARY KEY clause..." ::
     Call (Execute ALTER_WITHOUT_PK) reply :: more) /\
  (contains "1068" text = false ->
   value_of run = inr false /\ statements (trace_of run) = [ALTER_WITH_PK]).
Proof.
  cbv zeta. unfold guarded, apply_fix.
  rewrite try_print, try_bind, alter_run, trace_of_prepend, value_of_prepend.
  destruct (execute ALTER_WITH_PK st) as [st1 [[errno' text' | text'] | []]];
    simpl.
  - destruct (contains "1068" text') eqn:Hcode.
    + unfold call_execute, invoke.
      destruct (execute ALTER_WITHOUT_PK st1) as [st2 [e | []]]; simpl;
        rewrite trace_of_prepend; simpl;
        intros [= -> ->]; (split; [eauto | congruence]).
    + rewrite trace_of_prepend, value_of_prepend, value_of_handler. simpl.
      intros [= -> ->]. split; [congruence | now split].
  - discriminate.
  - rewrite trace_of_prepend. discriminate.
Qed.

End Applying.

(** How lines 69-74 tell the error condition: by the text of the database
    error that refused the ALTER with PRIMARY KEY.  When the text contains
    1068, [fix_node] says so and sends the ALTER without PRIMARY KEY next;
    when it does not, [fix_node] returns failure having sent the DESCRIBE
    and that ALTER only, so no test insert. *)
Lemma alter_fallback_on_1068_text :
  forall (St : Type) (client : Client St) (node_name : string)
         (config : Config) (st : St) (errno : Z) (text : string),
    refused (trace_of (fix_node node_name config st)) = Some (MySQLError errno text) ->
    (contains "1068" text = true ->
     exists reply more,
       after is_alter_with_pk (trace_of (fix_node node_name config st)) =
       Print "   → Primary key already exists, trying without PRIMARY KEY clause..." ::
       Call (Execute ALTER_WITHOUT_PK) reply :: more) /\
    (contains "1068" text = false ->
     value_of (fix_node node_name config st) = inr false /\
     statements (trace_of (fix_node node_name config st)) =
     [DESCRIBE_USERS; ALTER_WITH_PK] /\
     ~ In INSERT_TEST (statements (trace_of (fix_node node_name config st)))).
Proof.
  intros St client node_name config st errno text.
  destruct (fix_node_applies node_name config st)
    as [(st5 & columns & verdict & Hverdict & ->) | [-> _]]; [| discriminate].
  pose proof (apply_fix_refused node_name st5 errno text) as Hfix.
  cbv zeta in Hfix.
  rewrite trace_of_prepend, value_of_prepend.
  assert (forall t, refused (prelude node_name config columns ++ verdict ++ t)%list
                    = refused t) as Hpre
      by (intros t; destruct Hverdict as [-> | ->]; reflexivity).
  assert (forall t, after is_alter_with_pk
                      (prelude node_name config columns ++ verdict ++ t)%list
                    = after is_alter_with_pk t) as Hafter
      by (intros t; destruct Hverdict as [-> | ->]; reflexivity).
  assert (forall t, statements (prelude node_name config columns ++ verdict ++ t)%list
                    = DESCRIBE_USERS :: statements t) as Hsent
      by (intros t; destruct Hverdict as [-> | ->]; reflexivity).
  rewrite <- app_assoc, Hpre, Hafter, Hsent.
  intros Hrefused. destruct (Hfix Hrefused) as [Hfallback Hfails].
  split; [assumption |].
  intros Hcode. destruct (Hfails Hcode) as [Hvalue ->].
  repeat split; try assumption.
  simpl. intros [H | [H | []]]; discriminate H.
Qed.

(** The sentence of the specification, with the condition told by the
    error number, does not hold of the code. *)
Lemma duplicate_entry_takes_fallback : ~ alter_errors_told_by_number.
Proof.
  intros Hclaim.
  destruct (Hclaim script scripted "Central (Node 0)" node0 duplicate_id_1068
              1062%Z "1062 (23000): Duplicate entry '1068' for key 'users.PRIMARY'"
              eq_refl) as [_ Hother].
  destruct Hother as [Hvalue _]; [discriminate |].
  discriminate Hvalue.
Qed.

(** C4: the code departs from the claim.  On a table whose [id] holds the
    value 1068 twice, the ALTER with PRIMARY KEY is refused with error
    1062, a duplicate entry and not the multiple-primary-key error 1068;
    its text quotes the value, line 70 finds 1068 in it, and [fix_node]
    announces an existing primary key, sends the fallback ALTER, goes on to
    the test insert and returns success. *)
Theorem duplicate_entry_taken_for_error_1068 :
  let run := fix_node "Central (Node 0)" node0 duplicate_id_1068 in
  refused (trace_of run) =
  Some (MySQLError 1062
          "1062 (23000): Duplicate entry '1068' for key 'users.PRIMARY'") /\
  In (Print "   → Primary key already exists, trying without PRIMARY KEY clause...")
     (trace_of run) /\
  statements (trace_of run) =
  [DESCRIBE_USERS; ALTER_WITH_PK; ALTER_WITHOUT_PK; SHOW_CREATE; INSERT_TEST;
   DELETE_TEST (Some 1069%Z)] /\
  value_of run = inr true.
Proof.
  cbv zeta. split; [reflexivity |].
  split; [vm_compute; tauto |].
  split; reflexivity.
Qed.

(** ** C5 *)

(** C5: the code departs from the claim.  On a server that accepts the
    ALTER and leaves the column as it was, [fix_node] reads back a table
    definition without AUTO_INCREMENT, prints that the verification failed
    and still returns success; the rows a second run fetches from DESCRIBE
    still report no auto-increment. *)
Theorem verification_failed_yet_success :
  let run := fix_node "Central (Node 0)" node0 unaltered_table in
  let again := fix_node "Central (Node 0)" node0 (state_of run) in
  value_of run = inr true /\
  In (Print "   ✗ Verification failed on Central (Node 0)") (trace_of run) /\
  In (Print "✓ Central (Node 0) is ready!") (trace_of run) /\
  exists columns,
    fetched (trace_of again) = Some columns /\
    reports_auto_increment columns = false.
Proof.
  cbv zeta. split; [reflexivity |].
  split; [vm_compute; tauto |].
  split; [vm_compute; tauto |].
  exists (describe_rows unaltered_table). split; reflexivity.
Qed.

(** ** C6 *)

Lemma same_outcome_refl {St A} (x : St * trace * (exn + A)) : same_outcome x x.
Proof. now repeat split. Qed.

Lemma same_outcome_prepend {St A} (a b : trace) (x y : St * trace * (exn + A)) :
  statements a = statements b ->
  same_outcome x y ->
  same_outcome (prepend a x) (prepend b y).
Proof.
  intros Hsent (Hstate & Hvalue & Htrace). unfold same_outcome.
  rewrite !state_of_prepend, !value_of_prepend, !trace_of_prepend, !statements_app.
  now rewrite Hsent, Htrace.
Qed.

Lemma try_assoc {St A B D} (m : M St A) (k : A -> M St B) (k' : B -> M St D)
      (h : exn -> M St D) (st : St) :
  try_except (bind (bind m k) k') h st =
  try_except (bind m (fun a => bind (k a) k')) h st.
Proof. unfold try_except. now rewrite bind_assoc. Qed.

Lemma created_app (a b : trace) :
  Forall not_fetchone a -> created (a ++ b)%list = created b.
Proof.
  induction 1 as [| e a He _ IH]; [reflexivity |].
  destruct e as [[] r | s]; simpl; try assumption; discriminate He.
Qed.

Lemma after_fetchone_app (a b : trace) :
  Forall not_fetchone a ->
  after is_fetchone (a ++ b)%list = after is_fetchone b.
Proof.
  induction 1 as [| e a He _ IH]; [reflexivity |].
  simpl. unfold not_fetchone in He. now rewrite He.
Qed.

Section Verifying.

Context {St : Type} {client : Client St}.

(** The verification and what follows it, by the replies. *)
Lemma verify_run (node_name : string) (st : St) :
  guarded node_name (verify node_name ;; smoke_test node_name) st =
  prepend [Print "3. Verifying fix..."]
    match execute SHOW_CREATE st with
    | (st1, inl e) =>
        prepend [Call (Execute SHOW_CREATE) (Raised e)]
                (fix_node_handler node_name e st1)
    | (st1, inr _) =>
        prepend [Call (Execute SHOW_CREATE) Done]
          match fetchone st1 with
          | (st2, inl e) =>
              prepend [Call Fetchone (Raised e)] (fix_node_handler node_name e st2)
          | (st2, inr r) =>
              prepend [Call Fetchone (Row r)]
                match second r with
                | inl e => fix_node_handler node_name e st2
                | inr create_table =>
                    match in_field "AUTO_INCREMENT" create_table with
                    | inl e => fix_node_handler node_name e st2
                    | inr found =>
                        prepend
                          [Print (if found
                                  then "   ✓ " ++ node_name ++ " fixed successfully!"
                                  else "   ✗ Verification failed on " ++ node_name)]
                          (guarded node_name (smoke_test node_name) st2)
                    end
                end
          end
    end.
Proof.
  unfold guarded, verify, call_execute, call_fetchone.
  rewrite try_assoc, try_print. f_equal.
  rewrite try_assoc, try_invoke.
  destruct (execute SHOW_CREATE st) as [st1 [e | []]]; [reflexivity |]. f_equal.
  rewrite try_assoc, try_invoke.
  destruct (fetchone st1) as [st2 [e | r]]; [reflexivity |]. f_equal.
  rewrite try_assoc, try_lift.
  destruct (second r) as [e | create_table]; [reflexivity |].
  rewrite try_assoc, try_lift.
  destruct (in_field "AUTO_INCREMENT" create_table) as [e | []]; [reflexivity | |];
    now rewrite try_print.
Qed.

(** The fix, by the outcome of the ALTER and of its commit. *)
Lemma apply_fix_run (node_name : string) (st : St) :
  guarded node_name (apply_fix node_name) st =
  prepend [Print "2. Applying AUTO_INCREMENT fix..."]
    match alter st with
    | (st1, t1, inl e) => prepend t1 (fix_node_handler node_name e st1)
    | (st1, t1, inr _) =>
        prepend t1
          match commit st1 with
          | (st2, inl e) =>
              prepend [Call Commit (Raised e)] (fix_node_handler node_name e st2)
          | (st2, inr _) =>
              prepend [Call Commit Done; Print "   ✓ ALTER TABLE executed successfully"]
                (guarded node_name (verify node_name ;; smoke_test node_name) st2)
          end
    end.
Proof.
  unfold guarded, apply_fix, call_commit.
  rewrite try_print, try_bind. f_equal.
  destruct (alter st) as [[st1 t1] [e | []]]; [reflexivity |]. f_equal.
  rewrite try_invoke.
  destruct (commit st1) as [st2 [e | []]]; [reflexivity |].
  now rewrite try_print, prepend_prepend.
Qed.

Lemma alter_no_fetchone (st : St) : Forall not_fetchone (trace_of (alter st)).
Proof.
  rewrite alter_run.
  destruct (execute ALTER_WITH_PK st) as [st1 [[errno text | text] | []]];
    [destruct (contains "1068" text) | |];
    rewrite ?trace_of_prepend; simpl; repeat constructor.
  unfold call_execute, invoke.
  destruct (execute ALTER_WITHOUT_PK st1) as [st2 [e | []]];
    simpl; repeat constructor.
Qed.

(** The test insert is the first thing the smoke test sends. *)
Lemma smoke_test_first (node_name : string) (st : St) :
  exists reply more,
    trace_of (guarded node_name (smoke_test node_name) st) =
    Print "4. Testing auto-increment with test insert..." ::
    Call (Execute INSERT_TEST) reply :: more.
Proof.
  unfold guarded, smoke_test, call_execute.
  rewrite try_print, try_invoke, trace_of_prepend.
  destruct (execute INSERT_TEST st) as [st1 [e | []]];
    rewrite trace_of_prepend; simpl; eauto.
Qed.

End Verifying.

Section NonFatal.

Context {St : Type} {client : Client St}.

(** A verification that finds no marker prints its failure and goes on to
    the test insert. *)
Lemma verify_missing_marker (node_name : string) (st : St)
      (r : row) (definition : string) :
  let run := guarded node_name (verify node_name ;; smoke_test node_name) st in
  created (trace_of run) = Some (Some r) ->
  nth_error r 1 = Some (FStr definition) ->
  contains "AUTO_INCREMENT" definition = false ->
  exists reply more,
    after is_fetchone (trace_of run) =
    Print ("   ✗ Verification failed on " ++ node_name) ::
    Print "4. Testing auto-increment with test insert..." ::
    Call (Execute INSERT_TEST) reply :: more.
Proof.
  cbv zeta. intros Hcreated Hsecond Hmarker.
  assert (second (Some r) = inr (FStr definition)) as Hfield
      by (unfold second, index; now rewrite Hsecond).
  revert Hcreated. rewrite verify_run, trace_of_prepend. simpl.
  destruct (execute SHOW_CREATE st) as [st1 [e | []]].
  { destruct (fix_node_handler_run node_name e st1) as [line ->]. discriminate. }
  rewrite trace_of_prepend. simpl.
  destruct (fetchone st1) as [st2 [e | r']].
  { destruct (fix_node_handler_run node_name e st2) as [line ->]. discriminate. }
  rewrite trace_of_prepend. simpl.
  intros [= ->]. rewrite Hfield. simpl. rewrite Hmarker, trace_of_prepend.
  destruct (smoke_test_first node_name st2) as (reply & more & ->).
  simpl. eauto.
Qed.

Lemma apply_fix_missing_marker (node_name : string) (st : St)
      (r : row) (definition : string) :
  let run := guarded node_name (apply_fix node_name) st in
  created (trace_of run) = Some (Some r) ->
  nth_error r 1 = Some (FStr definition) ->
  contains "AUTO_INCREMENT" definition = false ->
  exists reply more,
    after is_fetchone (trace_of run) =
    Print ("   ✗ Verification failed on " ++ node_name) ::
    Print "4. Testing auto-increment with test insert..." ::
    Call (Execute INSERT_TEST) reply :: more.
Proof.
  cbv zeta. rewrite apply_fix_run, trace_of_prepend. simpl.
  pose proof (alter_no_fetchone st) as Halter.
  destruct (alter st) as [[st1 t1] [e | []]]; simpl in Halter;
    rewrite trace_of_prepend, created_app, after_fetchone_app by assumption.
  { destruct (fix_node_handler_run node_name e st1) as [line ->]. discriminate. }
  destruct (commit st1) as [st2 [e | []]]; rewrite trace_of_prepend; simpl.
  { destruct (fix_node_handler_run node_name e st2) as [line ->]. discriminate. }
  apply verify_missing_marker.
Qed.

End NonFatal.

Section Indifference.

Context {St : Type} (client : Client St) (d1 d2 : string).

(** With the table definition read back as [d1] or as [d2], the runs end
    alike. *)
Lemma verify_indifferent (node_name : string) (st : St) :
  same_outcome
    (guarded node_name
       (verify (client := with_definition client d1) node_name ;;
        smoke_test (client := with_definition client d1) node_name) st)
    (guarded node_name
       (verify (client := with_definition client d2) node_name ;;
        smoke_test (client := with_definition client d2) node_name) st).
Proof.
  rewrite !verify_run. apply same_outcome_prepend; [reflexivity |].
  change (@execute St (with_definition client d1)) with (@execute St client).
  change (@execute St (with_definition client d2)) with (@execute St client).
  destruct (execute SHOW_CREATE st) as [st1 [e | []]];
    [apply same_outcome_refl |].
  apply same_outcome_prepend; [reflexivity |].
  simpl.
  destruct (fetchone st1) as [st2 [e | r]]; [apply same_outcome_refl |].
  apply same_outcome_prepend; [reflexivity |]. simpl.
  apply same_outcome_prepend; [reflexivity |].
  apply same_outcome_refl.
Qed.

Lemma apply_fix_indifferent (node_name : string) (st : St) :
  same_outcome
    (guarded node_name (apply_fix (client := with_definition client d1) node_name) st)
    (guarded node_name (apply_fix (client := with_definition client d2) node_name) st).
Proof.
  rewrite !apply_fix_run. apply same_outcome_prepend; [reflexivity |].
  change (@alter St (with_definition client d1)) with (@alter St client).
  change (@alter St (with_definition client d2)) with (@alter St client).
  destruct (alter st) as [[st1 t1] [e | []]]; [apply same_outcome_refl |].
  apply same_outcome_prepend; [reflexivity |].
  change (@commit St (with_definition client d1)) with (@commit St client).
  change (@commit St (with_definition client d2)) with (@commit St client).
  destruct (commit st1) as [st2 [e | []]]; [apply same_outcome_refl |].
  apply same_outcome_prepend; [reflexivity |].
  apply verify_indifferent.
Qed.

Lemma check_columns_indifferent (node_name : string) (columns : list row) (st : St) :
  same_outcome
    (guarded node_name
       (check_columns (client := with_definition client d1) node_name columns) st)
    (guarded node_name
       (check_columns (client := with_definition client d2) node_name columns) st).
Proof.
  destruct (id_column columns) as [e | [| first rest]] eqn:Hid.
  - unfold guarded, check_columns. rewrite !try_lift, Hid.
    apply same_outcome_refl.
  - rewrite !check_no_id by assumption. apply apply_fix_indifferent.
  - destruct (extra first) as [e | x] eqn:Hextra.
    { unfold guarded, check_columns. rewrite !try_lift, Hid, !try_lift, Hextra.
      apply same_outcome_refl. }
    destruct (in_lower "auto_increment" x) as [e | []] eqn:Hin.
    + unfold guarded, check_columns.
      rewrite !try_lift, Hid, !try_lift, Hextra, !try_lift, Hin.
      apply same_outcome_refl.
    + rewrite !(check_already_set _ _ _ _ _ _ Hid Hextra Hin).
      apply same_outcome_refl.
    + rewrite !(check_not_set _ _ _ _ _ _ Hid Hextra Hin).
      apply same_outcome_prepend; [reflexivity |].
      apply apply_fix_indifferent.
Qed.

Lemma fix_node_indifferent (node_name : string) (config : Config) (st : St) :
  same_outcome (fix_node (client := with_definition client d1) node_name config st)
               (fix_node (client := with_definition client d2) node_name config st).
Proof.
  rewrite !fix_node_guarded. apply same_outcome_prepend; [reflexivity |].
  unfold guarded, fix_node_body.
  unfold call_connect, call_cursor, call_execute, call_fetchall.
  rewrite !try_invoke.
  change (@connect St (with_definition client d1)) with (@connect St client).
  change (@connect St (with_definition client d2)) with (@connect St client).
  destruct (connect config st) as [st1 [e | []]]; [apply same_outcome_refl |].
  apply same_outcome_prepend; [reflexivity |].
  rewrite !try_invoke.
  change (@cursor St (with_definition client d1)) with (@cursor St client).
  change (@cursor St (with_definition client d2)) with (@cursor St client).
  destruct (cursor st1) as [st2 [e | []]]; [apply same_outcome_refl |].
  apply same_outcome_prepend; [reflexivity |].
  rewrite !try_print. apply same_outcome_prepend; [reflexivity |].
  rewrite !try_invoke.
  change (@execute St (with_definition client d1)) with (@execute St client).
  change (@execute St (with_definition client d2)) with (@execute St client).
  destruct (execute DESCRIBE_USERS st2) as [st3 [e | []]]; [apply same_outcome_refl |].
  apply same_outcome_prepend; [reflexivity |].
  rewrite !try_invoke.
  change (@fetchall St (with_definition client d1)) with (@fetchall St client).
  change (@fetchall St (with_definition client d2)) with (@fetchall St client).
  destruct (fetchall st3) as [st4 [e | columns]]; [apply same_outcome_refl |].
  apply same_outcome_prepend; [reflexivity |].
  apply check_columns_indifferent.
Qed.

End Indifference.

(** C6. When the table definition read back after the ALTER is a string
    without AUTO_INCREMENT, [fix_node] prints that the verification failed
    and goes on to the test insert; and the text read back has no say in
    the outcome: with any two definitions in its place the run sends the
    same statements and returns the same boolean. *)
Theorem verification_is_not_fatal :
  forall (St : Type) (client : Client St) (node_name : string)
         (config : Config) (st : St) (r : row) (definition : string),
    created (trace_of (fix_node node_name config st)) = Some (Some r) ->
    nth_error r 1 = Some (FStr definition) ->
    contains "AUTO_INCREMENT" definition = false ->
    (exists reply more,
        after is_fetchone (trace_of (fix_node node_name config st)) =
        Print ("   ✗ Verification failed on " ++ node_name) ::
        Print "4. Testing auto-increment with test insert..." ::
        Call (Execute INSERT_TEST) reply :: more) /\
    (forall d1 d2 : string,
        same_outcome
          (fix_node (client := with_definition client d1) node_name config st)
          (fix_node (client := with_definition client d2) node_name config st)).
Proof.
  intros St client node_name config st r definition Hcreated Hsecond Hmarker.
  split; [| intros d1 d2; apply fix_node_indifferent].
  destruct (fix_node_applies node_name config st)
    as [(st5 & columns & verdict & Hverdict & Hrun) | [_ Hnone]];
    [| congruence].
  rewrite Hrun in *. rewrite trace_of_prepend in *.
  assert (Forall not_fetchone (prelude node_name config columns ++ verdict)%list)
    as Hquiet by (destruct Hverdict as [-> | ->]; repeat constructor).
  rewrite created_app in Hcreated by assumption.
  rewrite after_fetchone_app by assumption.
  now apply (apply_fix_missing_marker node_name st5 r definition).
Qed.

Lemma verification_is_not_fatal_witness :
  (exists reply more,
      after is_fetchone (trace_of (fix_node "Central (Node 0)" node0 unaltered_table)) =
      Print ("   ✗ Verification failed on " ++ "Central (Node 0)") ::
      Print "4. Testing auto-increment with test insert..." ::
      Call (Execute INSERT_TEST) reply :: more) /\
  (forall d1 d2 : string,
      same_outcome
        (fix_node (client := with_definition scripted d1) "Central (Node 0)" node0
                  unaltered_table)
        (fix_node (client := with_definition scripted d2) "Central (Node 0)" node0
                  unaltered_table)).
Proof.
  apply (verification_is_not_fatal script scripted "Central (Node 0)" node0
           unaltered_table
           [FStr "users";
            FStr "CREATE TABLE `users` (`id` int NOT NULL, PRIMARY KEY (`id`))"]
           "CREATE TABLE `users` (`id` int NOT NULL, PRIMARY KEY (`id`))");
    reflexivity.
Defined.

(** ** Properties of every event of a run *)

Section Always.

Context {St : Type} (P : event -> Prop).

Lemma always_ret {A} (a : A) : always (St := St) P (ret a).
Proof. intros st. constructor. Qed.

Lemma always_raise {A} (e : exn) : always (St := St) (A := A) P (raise e).
Proof. intros st. constructor. Qed.

Lemma always_lift {A} (r : exn + A) : always (St := St) P (lift r).
Proof. intros st. constructor. Qed.

Lemma always_print (s : string) : P (Print s) -> always (St := St) P (print s).
Proof. intros Hp st. now repeat constructor. Qed.

Lemma always_invoke {A} (c : call) (rep : A -> reply) (op : St -> St * (exn + A)) :
  (forall r, P (Call c r)) -> always P (invoke c rep op).
Proof.
  intros Hp st. unfold invoke.
  destruct (op st) as [st1 [e | a]]; simpl; now repeat constructor.
Qed.

Lemma always_bind {A B} (m : M St A) (k : A -> M St B) :
  always P m -> (forall a, always P (k a)) -> always P (bind m k).
Proof.
  intros Hm Hk st. unfold bind. specialize (Hm st).
  destruct (m st) as [[st1 t1] [e | a]]; [assumption |].
  rewrite trace_of_prepend. apply Forall_app. split; [assumption | apply Hk].
Qed.

Lemma always_try {A} (m : M St A) (h : exn -> M St A) :
  always P m -> (forall e, always P (h e)) -> always P (try_except m h).
Proof.
  intros Hm Hh st. unfold try_except. specialize (Hm st).
  destruct (m st) as [[st1 t1] [e | a]]; [| assumption].
  rewrite trace_of_prepend. apply Forall_app. split; [assumption | apply Hh].
Qed.

End Always.

Ltac always_step :=
  first
    [ apply always_bind; [| intros ?]
    | apply always_try; [| intros ?]
    | apply always_print
    | apply always_invoke; intros ?
    | apply always_lift
    | apply always_ret
    | apply always_raise
    | match goal with
      | |- always _ (match ?x with _ => _ end) => destruct x
      | |- always _ (if ?b then _ else _) => destruct b
      end ].

(** A line that starts otherwise is no "Fixing" line. *)
Ltac other_line :=
  let other := fresh "other" in
  let H := fresh "H" in
  intros other H; vm_compute in H; (discriminate H || (injection H; auto)).

Lemma fix_node_events {St : Type} {client : Client St}
      (node_name : string) (config : Config) :
  always (fix_node_event node_name config) (fix_node node_name config).
Proof.
  unfold fix_node, fix_node_body, fix_node_handler, check_columns, apply_fix,
    verify, smoke_test, alter, call_connect, call_cursor, call_execute,
    call_fetchall, call_fetchone, call_commit, call_lastrowid,
    call_cursor_close, call_conn_close.
  repeat always_step.
  all: lazymatch goal with
       | |- fix_node_event _ _ (Print _) => other_line
       | |- fix_node_event _ _ (Call (Execute _) _) =>
           simpl; unfold code_statement; eauto 10
       | |- fix_node_event _ _ (Call _ _) => exact I || reflexivity
       end.
Qed.

(** ** C8 *)

Lemma statements_in (t : trace) (sql : string) :
  In sql (statements t) -> exists r, In (Call (Execute sql) r) t.
Proof.
  induction t as [| e t IH]; [intros [] |].
  destruct e as [[] r | s]; simpl; intros Hin;
    try (destruct (IH Hin) as [r' Hr]; eauto).
  destruct Hin as [-> | Hin]; [eauto |].
  destruct (IH Hin) as [r' Hr]; eauto.
Qed.

(** C8, as amended. Every statement [fix_node] sends is one of the six
    of the code: five of them are letter for letter those of the
    specification's list (the DELETE for the id that [lastrowid] gave); the
    INSERT is the triple-quoted literal of lines 89-92, which differs from
    the listed one in blanks and line breaks only. *)
Theorem statements_are_those_of_the_code :
  forall (St : Type) (client : Client St) (node_name : string)
         (config : Config) (st : St),
    Forall (fun sql => sql = INSERT_TEST \/
                       (spec_statement sql /\ sql <> SPEC_INSERT))
           (statements (trace_of (fix_node node_name config st))) /\
    INSERT_TEST <> SPEC_INSERT /\
    squeeze INSERT_TEST = squeeze SPEC_INSERT.
Proof.
  intros St client node_name config st.
  split; [| split; [intros H; vm_compute in H; discriminate H
                   | vm_compute; reflexivity]].
  apply Forall_forall. intros sql Hin.
  destruct (statements_in _ _ Hin) as [r Hr].
  pose proof (fix_node_events node_name config st) as Hall.
  rewrite Forall_forall in Hall. specialize (Hall _ Hr).
  change (code_statement sql) in Hall.
  destruct Hall as [-> | [-> | [-> | [-> | [-> | [test_id ->]]]]]];
    [right | right | right | right | left; reflexivity | right];
    (split; [| intros H; vm_compute in H; discriminate H]).
  - left. reflexivity.
  - right. left. reflexivity.
  - do 2 right. left. reflexivity.
  - do 3 right. left. reflexivity.
  - do 5 right. now exists test_id.
Qed.

Lemma insert_not_listed : ~ spec_statement INSERT_TEST.
Proof.
  intros [H | [H | [H | [H | [H | [test_id H]]]]]];
    vm_compute in H; discriminate H.
Qed.

(** C8, as worded, fails: the INSERT that is sent is not the listed text. *)
Lemma insert_text_differs : ~ statements_as_listed.
Proof.
  intros Hclaim.
  specialize (Hclaim script scripted "Central (Node 0)" node0 broken_table).
  rewrite Forall_forall in Hclaim.
  apply insert_not_listed, Hclaim.
  vm_compute. do 3 right. left. reflexivity.
Qed.

(** ** The loop of [main] *)

Lemma dict_set_fresh (results : results_t) (node_name : string) (v : bool) :
  ~ In node_name (map fst results) ->
  dict_set results node_name v = (results ++ [(node_name, v)])%list.
Proof.
  induction results as [| [k w] results IH]; [reflexivity |].
  simpl. intros Hfresh.
  destruct (String.eqb_spec k node_name) as [-> | _].
  - destruct Hfresh. now left.
  - rewrite IH; [reflexivity |]. intros Hin. apply Hfresh. now right.
Qed.

Lemma record_all_fresh (outcomes results : results_t) :
  NoDup (map fst results ++ map fst outcomes) ->
  record_all results outcomes = (results ++ outcomes)%list.
Proof.
  revert results.
  induction outcomes as [| [k v] outcomes IH]; intros results Hnodup.
  - now rewrite app_nil_r.
  - unfold record_all in *. simpl in *.
    rewrite dict_set_fresh.
    + rewrite IH.
      * now rewrite <- app_assoc.
      * rewrite map_app, <- app_assoc. exact Hnodup.
    + apply NoDup_remove_2 in Hnodup. intros Hin. apply Hnodup.
      apply in_or_app. now left.
Qed.

Lemma success_count_true (results : results_t) :
  success_count results = count_occ bool_dec (map snd results) true.
Proof.
  unfold success_count.
  induction results as [| [k []] results IH]; simpl; [reflexivity | |];
    now rewrite IH.
Qed.

Lemma connections_app (a b : trace) :
  connections (a ++ b)%list = (connections a ++ connections b)%list.
Proof.
  induction a as [| e a IH]; [reflexivity |].
  destruct e as [[] r | s]; simpl; rewrite ?IH; reflexivity.
Qed.

Lemma connections_in (t : trace) (c : Config) :
  In c (connections t) -> exists r, In (Call (Connect c) r) t.
Proof.
  induction t as [| e t IH]; [intros [] |].
  destruct e as [[] r | s]; simpl; intros Hin;
    try (destruct (IH Hin) as [r' Hr]; eauto).
  destruct Hin as [-> | Hin]; [eauto |].
  destruct (IH Hin) as [r' Hr]; eauto.
Qed.

Lemma connections_prints (lines : list string) :
  connections (map Print lines) = [].
Proof. induction lines; simpl; auto. Qed.

Lemma missing_incomplete (config : Config) :
  host config = None \/ user config = None \/
  password config = None \/ database config = None ->
  complete config = false.
Proof.
  unfold complete.
  intros [H | [H | [H | H]]]; rewrite H; simpl;
    rewrite ?andb_false_r; reflexivity.
Qed.

Lemma loop_event_weaken (item : string * Config) (items : list (string * Config))
      (e : event) :
  loop_event items e -> loop_event (item :: items) e.
Proof.
  destruct e as [[] r | s]; simpl; auto.
  - intros (name & Hin & Hc). exists name. split; [now right | assumption].
  - intros H other Hs. destruct (H other Hs) as (c & Hin & Hc).
    exists c. split; [now right | assumption].
Qed.

Lemma fix_node_event_loop (node_name : string) (config : Config)
      (items : list (string * Config)) (e : event) :
  complete config = true ->
  fix_node_event node_name config e ->
  loop_event ((node_name, config) :: items) e.
Proof.
  intros Hc. destruct e as [[] r | s]; simpl; auto.
  - intros ->. exists node_name. split; [now left | assumption].
  - intros H other Hs. rewrite (H other Hs).
    exists config. split; [now left | assumption].
Qed.

Section Loop.

Context {St : Type} {client : Client St}.

Lemma fix_node_returns (node_name : string) (config : Config) (st : St) :
  exists success : bool, value_of (fix_node node_name config st) = inr success.
Proof.
  rewrite fix_node_guarded, value_of_prepend.
  unfold guarded, try_except.
  destruct (fix_node_body node_name config st) as [[st1 t1] [e | b]].
  - exists false. now rewrite value_of_prepend, value_of_handler.
  - now exists b.
Qed.

Lemma run_nodes_skip (node_name : string) (config : Config)
      (rest : list (string * Config)) (results : results_t) (st : St) :
  complete config = false ->
  run_nodes ((node_name, config) :: rest) results st =
  prepend [Print (nl ++ "⚠ Skipping " ++ node_name ++ " - incomplete configuration")]
          (run_nodes rest (dict_set results node_name false) st).
Proof. intros Hc. simpl. now rewrite Hc. Qed.

Lemma run_nodes_fix (node_name : string) (config : Config)
      (rest : list (string * Config)) (results : results_t) (st : St) :
  complete config = true ->
  run_nodes ((node_name, config) :: rest) results st =
  bind (fix_node node_name config)
       (fun success => run_nodes rest (dict_set results node_name success)) st.
Proof. intros Hc. simpl. now rewrite Hc. Qed.

(** The loop returns, with one outcome recorded per item in order, a
    failure for every item whose configuration is incomplete. *)
Lemma run_nodes_value (items : list (string * Config)) :
  forall (results : results_t) (st : St),
  exists outcomes,
    value_of (run_nodes items results st) = inr (record_all results outcomes) /\
    map fst outcomes = map fst items /\
    (forall name config,
        In (name, config) items -> complete config = false ->
        In (name, false) outcomes).
Proof.
  induction items as [| [node_name config] rest IH]; intros results st.
  - exists []. repeat split. intros name config [].
  - destruct (complete config) eqn:Hc.
    + rewrite run_nodes_fix by assumption. unfold bind.
      destruct (fix_node_returns node_name config st) as [success Hvalue].
      destruct (fix_node node_name config st) as [[st1 t1] v].
      simpl in Hvalue. subst v.
      destruct (IH (dict_set results node_name success) st1)
        as (outcomes & Hout & Hnames & Hfalse).
      exists ((node_name, success) :: outcomes).
      rewrite value_of_prepend, Hout. simpl. rewrite Hnames.
      repeat split. intros name c [[= -> ->] | Hin] Hincomplete.
      * congruence.
      * right. now apply (Hfalse name c).
    + rewrite run_nodes_skip by assumption.
      destruct (IH (dict_set results node_name false) st)
        as (outcomes & Hout & Hnames & Hfalse).
      exists ((node_name, false) :: outcomes).
      rewrite value_of_prepend, Hout. simpl. rewrite Hnames.
      repeat split. intros name c [[= -> ->] | Hin] Hincomplete.
      * now left.
      * right. now apply (Hfalse name c).
Qed.

(** The loop connects, and announces a fix, for complete items only. *)
Lemma run_nodes_events (items : list (string * Config)) :
  forall results : results_t, always (loop_event items) (run_nodes items results).
Proof.
  induction items as [| [node_name config] rest IH]; intros results st.
  - constructor.
  - destruct (complete config) eqn:Hc.
    + rewrite run_nodes_fix by assumption.
      apply always_bind.
      * intros st'. eapply Forall_impl; [| apply fix_node_events].
        intros e. now apply fix_node_event_loop.
      * intros success st'. eapply Forall_impl; [| apply IH].
        intros e. apply loop_event_weaken.
    + rewrite run_nodes_skip by assumption.
      rewrite trace_of_prepend. constructor.
      * intros other H. vm_compute in H. discriminate H.
      * eapply Forall_impl; [| apply IH]. intros e. apply loop_event_weaken.
Qed.

Lemma print_status_run (results : results_t) (st : St) :
  print_status results st =
  (st, map Print (map status_line results), inr tt).
Proof.
  induction results as [| entry results IH]; [reflexivity |].
  simpl. rewrite bind_print, IH. reflexivity.
Qed.

(** The summary prints its heading, one status line per entry and the
    total, and returns. *)
Lemma summary_run (results : results_t) (st : St) :
  exists farewell,
    summary results st =
    (st,
     ([Print (nl ++ banner); Print "SUMMARY"; Print banner] ++
      map Print (map status_line results) ++
      Print (total_line results) :: map Print farewell)%list,
     inr tt).
Proof.
  unfold summary. rewrite !bind_print. unfold bind at 1.
  rewrite print_status_run. rewrite bind_print.
  destruct (Nat.eqb (success_count results) (total_count results));
    rewrite bind_print; unfold print; simpl;
    eexists [_; _]; rewrite ?app_nil_r; reflexivity.
Qed.

Lemma heading_run (st : St) :
  exists lines, heading st = (st, map Print lines, inr tt).
Proof.
  unfold heading. rewrite !bind_print. unfold print. simpl.
  eexists [_; _; _; _; _]. reflexivity.
Qed.

(** [main] is its heading, its loop and its summary on what the loop
    recorded. *)
Lemma main_run (items : list (string * Config)) (st : St) (results : results_t) :
  value_of (run_nodes items [] st) = inr results ->
  main items st =
  prepend (trace_of (heading st))
    (prepend (trace_of (run_nodes items [] st))
       (summary results (state_of (run_nodes items [] st)))).
Proof.
  intros Hvalue. unfold main.
  destruct (heading_run st) as [lines Hheading].
  unfold bind at 1. rewrite Hheading. simpl. f_equal.
  unfold bind.
  destruct (run_nodes items [] st) as [[st1 t1] v]. simpl in *. now subst v.
Qed.

End Loop.

Lemma same_name_same_config (items : list (string * Config))
      (name : string) (c1 c2 : Config) :
  NoDup (map fst items) -> In (name, c1) items -> In (name, c2) items -> c1 = c2.
Proof.
  induction items as [| [k c] items IH]; [intros _ [] |].
  simpl. intros Hnodup H1 H2. inversion Hnodup as [| ? ? Hfresh Hrest]; subst.
  destruct H1 as [[= -> ->] | H1], H2 as [[= <-] | H2]; auto.
  - subst. destruct Hfresh. now apply (in_map fst _ (name, c2)).
  - destruct Hfresh. now apply (in_map fst _ (k, c1)).
Qed.

(** ** C1 *)

(** C1. Whatever the node configuration and whatever the client does in
    any of its operations, returning or raising, [fix_node] returns a
    boolean: no exception leaves it. *)
Theorem fix_node_never_raises :
  forall (St : Type) (client : Client St) (node_name : string)
         (config : Config) (st : St),
  exists success : bool,
    value_of (fix_node node_name config st) = inr success.
Proof. intros. apply fix_node_returns. Qed.

(** ** C3 *)

(** C3. For a node whose configuration lacks the host, the user, the
    password or the database name, the loop of [main] records a failure,
    which the summary reports; no connection is attempted with that
    configuration and [fix_node] is not entered for that node. *)
Theorem incomplete_config_is_skipped :
  forall (St : Type) (client : Client St) (items : list (string * Config))
         (st : St) (node_name : string) (config : Config),
    NoDup (map fst items) ->
    In (node_name, config) items ->
    host config = None \/ user config = None \/
    password config = None \/ database config = None ->
    (exists results,
        value_of (run_nodes items [] st) = inr results /\
        In (node_name, false) results) /\
    ~ In config (connections (trace_of (main items st))) /\
    ~ In (Print ("Fixing " ++ node_name)) (trace_of (run_nodes items [] st)) /\
    In (Print (node_name ++ ": " ++ status false)) (trace_of (main items st)).
Proof.
  intros St client items st node_name config Hnodup Hitem Hmissing.
  apply missing_incomplete in Hmissing.
  destruct (run_nodes_value items [] st) as (outcomes & Hvalue & Hnames & Hfalse).
  rewrite record_all_fresh in Hvalue by (simpl; now rewrite Hnames).
  simpl in Hvalue.
  pose proof (Hfalse node_name config Hitem Hmissing) as Hrecorded.
  pose proof (run_nodes_events items [] st) as Hevents.
  rewrite Forall_forall in Hevents.
  rewrite (main_run items st outcomes Hvalue), !trace_of_prepend.
  destruct (heading_run st) as [lines ->].
  destruct (summary_run outcomes (state_of (run_nodes items [] st)))
    as [farewell ->].
  simpl trace_of.
  split; [| split; [| split]].
  - now exists outcomes.
  - rewrite !connections_app, connections_prints. simpl.
    rewrite connections_app, connections_prints. simpl.
    rewrite connections_prints, app_nil_r.
    intros Hin. apply connections_in in Hin. destruct Hin as [r Hr].
    destruct (Hevents _ Hr) as (name & _ & Hcomplete). congruence.
  - intros Hin. destruct (Hevents _ Hin node_name eq_refl) as (c & Hc & Hcomplete).
    rewrite (same_name_same_config items node_name c config) in Hcomplete
      by assumption.
    congruence.
  - apply in_or_app. right. apply in_or_app. right.
    do 3 right. apply in_or_app. left.
    apply in_map. now apply (in_map status_line _ (node_name, false)).
Qed.

Lemma incomplete_config_is_skipped_witness :
  (exists results,
      value_of (run_nodes example_nodes [] fixed_table) = inr results /\
      In ("Partition 1 (Node 1)", false) results) /\
  ~ In node1_no_password (connections (trace_of (main example_nodes fixed_table))) /\
  ~ In (Print ("Fixing " ++ "Partition 1 (Node 1)"))
       (trace_of (run_nodes example_nodes [] fixed_table)) /\
  In (Print ("Partition 1 (Node 1)" ++ ": " ++ status false))
     (trace_of (main example_nodes fixed_table)).
Proof.
  apply (incomplete_config_is_skipped script scripted example_nodes fixed_table
           "Partition 1 (Node 1)" node1_no_password).
  - repeat constructor; simpl; intuition discriminate.
  - right. left. reflexivity.
  - right. right. left. reflexivity.
Defined.

(** ** C7 *)

(** C7. After a run over nodes with distinct names, [results] holds one
    boolean per node, in the order of the nodes; [main] prints, after its
    loop, the summary heading, then for each entry of [results], in that
    order, the line made of the node name, a colon and a blank, and the
    label of its boolean, so each node name in exactly one status line,
    and then the total line, whose first number is the number of entries
    that are true and whose second is the number of nodes. *)
Theorem summary_matches_results :
  forall (St : Type) (client : Client St) (items : list (string * Config))
         (st : St),
    NoDup (map fst items) ->
    exists (results : results_t) (farewell : list string),
      value_of (run_nodes items [] st) = inr results /\
      map fst results = map fst items /\
      (forall name, In name (map fst items) ->
                    count_occ string_dec (map fst results) name = 1%nat) /\
      value_of (main items st) = inr tt /\
      trace_of (main items st) =
      (trace_of (heading st) ++
       trace_of (run_nodes items [] st) ++
       [Print (nl ++ banner); Print "SUMMARY"; Print banner] ++
       map (fun entry : string * bool =>
              Print (fst entry ++ ": " ++
                     (if snd entry then "✓ FIXED" else "✗ FAILED"))) results ++
       Print (nl ++ "Total: " ++
              str_nat (count_occ bool_dec (map snd results) true) ++ "/" ++
              str_nat (length items) ++ " nodes fixed successfully") ::
       map Print farewell)%list.
Proof.
  intros St client items st Hnodup.
  destruct (run_nodes_value items [] st) as (results & Hvalue & Hnames & _).
  rewrite record_all_fresh in Hvalue by (simpl; now rewrite Hnames).
  simpl in Hvalue.
  destruct (summary_run results (state_of (run_nodes items [] st)))
    as [farewell Hsummary].
  exists results, farewell.
  split; [assumption |]. split; [assumption |]. split.
  { intros name Hin. rewrite Hnames.
    apply NoDup_count_occ'; assumption. }
  rewrite (main_run items st results Hvalue), Hsummary.
  rewrite !value_of_prepend, !trace_of_prepend. simpl value_of. simpl trace_of.
  split; [reflexivity |].
  unfold total_line, total_count.
  rewrite success_count_true.
  replace (length results) with (length items)
    by (rewrite <- (length_map fst items), <- Hnames; apply length_map).
  rewrite map_map. reflexivity.
Qed.

Lemma summary_matches_results_witness :
  exists (results : results_t) (farewell : list string),
    value_of (run_nodes example_nodes [] broken_table) = inr results /\
    map fst results = map fst example_nodes /\
    (forall name, In name (map fst example_nodes) ->
                  count_occ string_dec (map fst results) name = 1%nat) /\
    value_of (main example_nodes broken_table) = inr tt /\
    trace_of (main example_nodes broken_table) =
    (trace_of (heading broken_table) ++
     trace_of (run_nodes example_nodes [] broken_table) ++
     [Print (nl ++ banner); Print "SUMMARY"; Print banner] ++
     map (fun entry : string * bool =>
            Print (fst entry ++ ": " ++
                   (if snd entry then "✓ FIXED" else "✗ FAILED"))) results ++
     Print (nl ++ "Total: " ++
            str_nat (count_occ bool_dec (map snd results) true) ++ "/" ++
            str_nat (length example_nodes) ++ " nodes fixed successfully") ::
     map Print farewell)%list.
Proof.
  apply (summary_matches_results script scripted example_nodes broken_table).
  repeat constructor; simpl; intuition discriminate.
Defined.

(** * Further properties of the script *)

(** ** Connections *)

Lemma connections_none (t : trace) :
  Forall not_connect t -> connections t = [].
Proof.
  induction 1 as [| e t He _ IH]; [reflexivity |].
  destruct e as [[] r | s]; simpl; try assumption. destruct He.
Qed.

Section Connecting.

Context {St : Type} {client : Client St}.

(** After the connection, [fix_node] never connects again. *)
Lemma connected_no_more (node_name : string) :
  always not_connect
    (try_except
       (call_cursor ;;
        print "1. Checking current table structure..." ;;
        call_execute DESCRIBE_USERS ;;
        columns <- call_fetchall ;;
        check_columns node_name columns)
       (fix_node_handler node_name)).
Proof.
  unfold fix_node_handler, check_columns, apply_fix, verify, smoke_test, alter,
    call_cursor, call_execute, call_fetchall, call_fetchone, call_commit,
    call_lastrowid, call_cursor_close, call_conn_close.
  repeat always_step; exact I.
Qed.

Lemma fix_node_connections (node_name : string) (config : Config) (st : St) :
  connections (trace_of (fix_node node_name config st)) = [config].
Proof.
  rewrite fix_node_guarded, trace_of_prepend, connections_app.
  unfold guarded, fix_node_body, call_connect. rewrite try_invoke.
  destruct (connect config st) as [st1 [e | []]].
  - destruct (fix_node_handler_run node_name e st1) as [line ->]. reflexivity.
  - rewrite trace_of_prepend, connections_app. simpl.
    now rewrite (connections_none _ (connected_no_more node_name st1)).
Qed.

Lemma run_nodes_connections (items : list (string * Config)) :
  forall (results : results_t) (st : St),
    connections (trace_of (run_nodes items results st)) =
    map snd (filter (fun item => complete (snd item)) items).
Proof.
  induction items as [| [node_name config] rest IH]; intros results st.
  - reflexivity.
  - simpl filter. destruct (complete config) eqn:Hc.
    + rewrite run_nodes_fix by assumption. unfold bind.
      pose proof (fix_node_connections node_name config st) as Hone.
      destruct (fix_node_returns node_name config st) as [success Hvalue].
      destruct (fix_node node_name config st) as [[st1 t1] v].
      simpl in Hone, Hvalue. subst v.
      rewrite trace_of_prepend, connections_app, Hone, IH. reflexivity.
    + rewrite run_nodes_skip by assumption.
      rewrite trace_of_prepend, connections_app, IH. reflexivity.
Qed.

End Connecting.

(** X1. [fix_node] attempts one connection, with the configuration it was
    given, whatever the client replies: it never retries and never
    connects a second time. *)
Theorem fix_node_connects_once :
  forall (St : Type) (client : Client St) (node_name : string)
         (config : Config) (st : St),
    connections (trace_of (fix_node node_name config st)) = [config].
Proof. intros. apply fix_node_connections. Qed.

Lemma main_connections {St : Type} {client : Client St}
      (items : list (string * Config)) (st : St) :
  connections (trace_of (main items st)) =
  map snd (filter (fun item => complete (snd item)) items) /\
  value_of (main items st) = inr tt.
Proof.
  destruct (run_nodes_value items [] st) as (outcomes & Hvalue & _).
  rewrite (main_run items st _ Hvalue), !trace_of_prepend, !value_of_prepend.
  destruct (heading_run st) as [lines ->].
  destruct (summary_run (record_all [] outcomes) (state_of (run_nodes items [] st)))
    as [farewell ->].
  simpl trace_of. split; [| reflexivity].
  rewrite !connections_app, connections_prints, run_nodes_connections. simpl.
  rewrite connections_app, connections_prints. simpl.
  now rewrite connections_prints, app_nil_r.
Qed.

(** X2. [main] attempts one connection for each node whose configuration
    is complete, in the order of the nodes and whatever happened on the
    nodes before: a failure on one node does not keep the next from being
    tried; and [main] itself never raises. *)
Theorem main_connects_each_complete_node :
  forall (St : Type) (client : Client St) (items : list (string * Config))
         (st : St),
    connections (trace_of (main items st)) =
    map snd (filter (fun item => complete (snd item)) items) /\
    value_of (main items st) = inr tt.
Proof. intros. apply main_connections. Qed.

(** ** The end of the summary *)

Lemma all_true_count (results : results_t) :
  Nat.eqb (success_count results) (total_count results) =
  forallb (fun entry => snd entry) results.
Proof.
  unfold success_count, total_count.
  assert (forall l : results_t,
             (length (filter (fun entry => snd entry) l) <= length l)%nat) as Hle.
  { induction l as [| [k []] l IH]; simpl; lia. }
  induction results as [| [k []] results IH]; simpl.
  - reflexivity.
  - exact IH.
  - apply Nat.eqb_neq. specialize (Hle results). lia.
Qed.

Lemma summary_farewell {St : Type} (results : results_t) (st : St) :
  trace_of (summary results st) =
  ([Print (nl ++ banner); Print "SUMMARY"; Print banner] ++
   map Print (map status_line results) ++
   Print (total_line results) ::
   map Print (farewell_lines (forallb (fun entry => snd entry) results)))%list.
Proof.
  unfold summary. rewrite !bind_print. unfold bind at 1.
  rewrite print_status_run, bind_print, all_true_count.
  destruct (forallb (fun entry => snd entry) results);
    rewrite bind_print; unfold print; simpl; rewrite ?app_nil_r; reflexivity.
Qed.

(** X3. [main] ends its output with the "All nodes fixed" lines exactly
    when every recorded outcome is true, and with the "Some nodes failed"
    lines otherwise; with no node at all it reports 0/0 and "All nodes
    fixed". *)
Theorem farewell_tells_all_fixed :
  forall (St : Type) (client : Client St) (items : list (string * Config))
         (st : St),
    (exists (results : results_t) (before : trace),
        value_of (run_nodes items [] st) = inr results /\
        trace_of (main items st) =
        (before ++
         Print (total_line results) ::
         map Print (farewell_lines (forallb (fun entry => snd entry) results)))%list) /\
    (exists before : trace,
        trace_of (main [] st) =
        (before ++
         [Print (nl ++ "Total: 0/0 nodes fixed successfully");
          Print (nl ++ "🎉 All nodes fixed! You can now run Case #3.");
          Print "   Restart your application if it's running, then test again."])%list).
Proof.
  intros St client items st.
  destruct (run_nodes_value items [] st) as (outcomes & Hvalue & _).
  pose proof (main_run items st _ Hvalue) as Hmain.
  split.
  - exists (record_all [] outcomes). eexists. split; [assumption |].
    rewrite Hmain, !trace_of_prepend, summary_farewell.
    rewrite !app_assoc. reflexivity.
  - eexists.
    rewrite (main_run [] st [] eq_refl), !trace_of_prepend, summary_farewell.
    simpl map. rewrite !app_assoc. reflexivity.
Qed.

(** ** Empty values in the configuration *)

Lemma empty_incomplete (config : Config) :
  host config = Some "" \/ user config = Some "" \/
  password config = Some "" \/ database config = Some "" ->
  complete config = false.
Proof.
  unfold complete.
  intros [H | [H | [H | H]]]; rewrite H; simpl;
    rewrite ?andb_false_r; reflexivity.
Qed.

Lemma run_nodes_skips {St : Type} {client : Client St}
      (items : list (string * Config)) :
  forall (results : results_t) (st : St) (node_name : string) (config : Config),
    In (node_name, config) items ->
    complete config = false ->
    In (Print (nl ++ "⚠ Skipping " ++ node_name ++ " - incomplete configuration"))
       (trace_of (run_nodes items results st)).
Proof.
  induction items as [| [name c] rest IH];
    intros results st node_name config Hin Hincomplete; [destruct Hin |].
  destruct (complete c) eqn:Hc.
  - rewrite run_nodes_fix by assumption. unfold bind.
    destruct (fix_node_returns name c st) as [success Hvalue].
    destruct (fix_node name c st) as [[st1 t1] v]. simpl in Hvalue. subst v.
    rewrite trace_of_prepend. apply in_or_app. right.
    destruct Hin as [[= -> ->] | Hin]; [congruence |].
    now apply (IH _ _ node_name config).
  - rewrite run_nodes_skip by assumption. rewrite trace_of_prepend.
    destruct Hin as [[= -> ->] | Hin]; [now left |].
    right. now apply (IH _ _ node_name config).
Qed.

(** X4. A node one of whose host, user, password or database name is set
    to the empty string is treated like one with the value missing: the
    loop prints its "Skipping" line, records a failure and attempts no
    connection with that configuration. *)
Theorem empty_value_is_skipped :
  forall (St : Type) (client : Client St) (items : list (string * Config))
         (st : St) (node_name : string) (config : Config),
    NoDup (map fst items) ->
    In (node_name, config) items ->
    host config = Some "" \/ user config = Some "" \/
    password config = Some "" \/ database config = Some "" ->
    (exists results,
        value_of (run_nodes items [] st) = inr results /\
        In (node_name, false) results) /\
    In (Print (nl ++ "⚠ Skipping " ++ node_name ++ " - incomplete configuration"))
       (trace_of (run_nodes items [] st)) /\
    ~ In config (connections (trace_of (main items st))).
Proof.
  intros St client items st node_name config Hnodup Hitem Hempty.
  apply empty_incomplete in Hempty.
  destruct (run_nodes_value items [] st) as (outcomes & Hvalue & Hnames & Hfalse).
  rewrite record_all_fresh in Hvalue by (simpl; now rewrite Hnames).
  simpl in Hvalue.
  split; [| split].
  - exists outcomes. split; [assumption |]. now apply (Hfalse node_name config).
  - now apply (run_nodes_skips items [] st node_name config).
  - destruct (main_connections items st) as [-> _].
    rewrite in_map_iff. intros ([name c] & Hc & Hin). simpl in Hc. subst c.
    apply filter_In in Hin. simpl in Hin. destruct Hin as [_ Hcomplete].
    congruence.
Qed.

Lemma empty_value_is_skipped_witness :
  (exists results,
      value_of (run_nodes [("Central (Node 0)", node0);
                           ("Partition 1 (Node 1)", node_empty_host)] []
                          fixed_table) = inr results /\
      In ("Partition 1 (Node 1)", false) results) /\
  In (Print (nl ++ "⚠ Skipping " ++ "Partition 1 (Node 1)" ++
             " - incomplete configuration"))
     (trace_of (run_nodes [("Central (Node 0)", node0);
                           ("Partition 1 (Node 1)", node_empty_host)] []
                          fixed_table)) /\
  ~ In node_empty_host
       (connections (trace_of (main [("Central (Node 0)", node0);
                                     ("Partition 1 (Node 1)", node_empty_host)]
                                    fixed_table))).
Proof.
  apply (empty_value_is_skipped script scripted
           [("Central (Node 0)", node0); ("Partition 1 (Node 1)", node_empty_host)]
           fixed_table "Partition 1 (Node 1)" node_empty_host).
  - repeat constructor; simpl; intuition discriminate.
  - right. left. reflexivity.
  - left. reflexivity.
Defined.

(** ** The nodes of the script *)

(** The dict is built exactly when each port is unset or a string that
    [int()] takes; it then has the three names of the source. *)
Lemma nodes_built (getenv : string -> option string) (int : string -> exn + Z) :
  port_read getenv int "0" && port_read getenv int "1" &&
  port_read getenv int "2" = true ->
  exists items,
    nodes getenv int = inr items /\
    map fst items =
    ["Central (Node 0)"; "Partition 1 (Node 1)"; "Partition 2 (Node 2)"] /\
    map (fun item => complete (snd item)) items =
    [env_complete getenv "0"; env_complete getenv "1"; env_complete getenv "2"].
Proof.
  unfold port_read, nodes. cbv [String.append].
  destruct (getenv_port getenv int "NODE0_PORT") as [e0 | port0];
    [discriminate |].
  destruct (getenv_port getenv int "NODE1_PORT") as [e1 | port1];
    [discriminate |].
  destruct (getenv_port getenv int "NODE2_PORT") as [e2 | port2];
    [discriminate |].
  intros _. eexists. split; [reflexivity |]. split; reflexivity.
Qed.

Lemma nodes_refused (getenv : string -> option string) (int : string -> exn + Z) :
  port_read getenv int "0" && port_read getenv int "1" &&
  port_read getenv int "2" = false ->
  exists e, nodes getenv int = inl e.
Proof.
  unfold port_read, nodes. cbv [String.append].
  destruct (getenv_port getenv int "NODE0_PORT") as [e0 | port0];
    [intros _; now exists e0 |].
  destruct (getenv_port getenv int "NODE1_PORT") as [e1 | port1];
    [intros _; now exists e1 |].
  destruct (getenv_port getenv int "NODE2_PORT") as [e2 | port2];
    [intros _; now exists e2 | discriminate].
Qed.

(** [example_nodes] is what the module builds in [example_env], whatever
    [int()] does. *)
Lemma example_nodes_built (int : string -> exn + Z) :
  nodes example_env int = inr example_nodes.
Proof. reflexivity. Qed.

(** With NODE1_PORT=abc the module stops at line 23: nothing is printed and
    no client call is made. *)
Example word_port_stops_the_module :
  @fix_database script scripted word_port_env example_int fixed_table =
  (fixed_table, [],
   inl (OtherException "invalid literal for int() with base 10: 'abc'")).
Proof. reflexivity. Qed.

Lemma length_filter3 {A} (f : A -> bool) (a b c : A) :
  length (filter f [a; b; c]) =
  ((if f a then 1 else 0) + (if f b then 1 else 0) + (if f c then 1 else 0))%nat.
Proof. simpl. destruct (f a), (f b), (f c); reflexivity. Qed.

(** X5. The module run as a script, for every environment and every
    behaviour of [int()]. If the port of some node is set to a string that
    [int()] refuses, building [nodes] raises: the run ends with that
    exception, nothing printed and no client call made. Otherwise the run
    is [main] on the three nodes: it records one outcome for each of
    Central (Node 0), Partition 1 (Node 1) and Partition 2 (Node 2), in
    this order; node n is recorded as failed unless NODEn_HOST, NODEn_USER,
    NODEn_PASSWORD and NODEn_DB are all set and not empty, and the number
    of connections tried is the number of nodes for which they are. *)
Theorem script_nodes_are_reported :
  forall (St : Type) (client : Client St)
         (getenv : string -> option string) (int : string -> exn + Z) (st : St),
    (port_read getenv int "0" && port_read getenv int "1" &&
     port_read getenv int "2" = false /\
     exists e : exn,
       nodes getenv int = inl e /\
       fix_database getenv int st = (st, [], inl e))
    \/
    (port_read getenv int "0" && port_read getenv int "1" &&
     port_read getenv int "2" = true /\
     exists (items : list (string * Config)) (r0 r1 r2 : bool),
       nodes getenv int = inr items /\
       map fst items =
       ["Central (Node 0)"; "Partition 1 (Node 1)"; "Partition 2 (Node 2)"] /\
       fix_database getenv int st = main items st /\
       value_of (run_nodes items [] st) =
       inr [("Central (Node 0)", r0); ("Partition 1 (Node 1)", r1);
            ("Partition 2 (Node 2)", r2)] /\
       (env_complete getenv "0" = true \/ r0 = false) /\
       (env_complete getenv "1" = true \/ r1 = false) /\
       (env_complete getenv "2" = true \/ r2 = false) /\
       length (connections (trace_of (fix_database getenv int st))) =
       ((if env_complete getenv "0" then 1 else 0) +
        (if env_complete getenv "1" then 1 else 0) +
        (if env_complete getenv "2" then 1 else 0))%nat).
Proof.
  intros St client getenv int st.
  destruct (port_read getenv int "0" && port_read getenv int "1" &&
            port_read getenv int "2") eqn:Hports.
  2: { left. split; [reflexivity |].
       destruct (nodes_refused getenv int Hports) as [e He].
       exists e. split; [exact He |].
       unfold fix_database. now rewrite He. }
  right. split; [reflexivity |].
  destruct (nodes_built getenv int Hports)
    as (items & Hitems & Hnames_items & Hcomplete).
  assert (fix_database getenv int st = main items st) as Hrun
      by (unfold fix_database; now rewrite Hitems).
  destruct (run_nodes_value items [] st)
    as (outcomes & Hvalue & Hnames & Hfalse).
  rewrite record_all_fresh in Hvalue
    by (simpl; rewrite Hnames, Hnames_items;
        repeat constructor; simpl; intuition discriminate).
  rewrite app_nil_l in Hvalue. rewrite Hnames_items in Hnames.
  destruct outcomes as [| [n0 r0] [| [n1 r1] [| [n2 r2] [| ? ?]]]];
    try discriminate Hnames.
  injection Hnames as -> -> ->.
  exists items, r0, r1, r2.
  split; [exact Hitems |]. split; [exact Hnames_items |].
  split; [exact Hrun |]. split; [exact Hvalue |].
  destruct items as [| [m0 c0] [| [m1 c1] [| [m2 c2] [| ? ?]]]];
    try discriminate Hnames_items.
  injection Hnames_items as -> -> ->.
  injection Hcomplete as Hc0 Hc1 Hc2.
  assert (forall name config,
             In (name, config)
                [("Central (Node 0)", c0); ("Partition 1 (Node 1)", c1);
                 ("Partition 2 (Node 2)", c2)] ->
             complete config = false ->
             forall r, In (name, r) [("Central (Node 0)", r0);
                                     ("Partition 1 (Node 1)", r1);
                                     ("Partition 2 (Node 2)", r2)] ->
                       r = false) as Hrecorded.
  { intros name config Hin Hc r Hr.
    specialize (Hfalse name config Hin Hc).
    simpl in Hr, Hfalse.
    destruct Hr as [[= <- <-] | [[= <- <-] | [[= <- <-] | []]]];
      destruct Hfalse as [[= ?] | [[= ?] | [[= ?] | []]]];
      congruence || discriminate. }
  split; [| split; [| split]].
  - destruct (env_complete getenv "0") eqn:Hc; [now left | right].
    eapply (Hrecorded "Central (Node 0)");
      [left; reflexivity | exact Hc0 | left; reflexivity].
  - destruct (env_complete getenv "1") eqn:Hc; [now left | right].
    eapply (Hrecorded "Partition 1 (Node 1)");
      [right; left; reflexivity | exact Hc1 | right; left; reflexivity].
  - destruct (env_complete getenv "2") eqn:Hc; [now left | right].
    eapply (Hrecorded "Partition 2 (Node 2)");
      [do 2 right; left; reflexivity | exact Hc2 | do 2 right; left; reflexivity].
  - rewrite Hrun.
    destruct (main_connections
                [("Central (Node 0)", c0); ("Partition 1 (Node 1)", c1);
                 ("Partition 2 (Node 2)", c2)] st) as [-> _].
    rewrite length_map, length_filter3. simpl snd.
    now rewrite Hc0, Hc1, Hc2.
Qed.

(** ** The two tests for the marker *)

Lemma prefix_append (n b : string) : String.prefix n (n ++ b) = true.
Proof.
  induction n as [| c n IH]; [now destruct b |].
  unfold String.append; fold String.append. simpl.
  destruct (ascii_dec c c) as [_ | Hne]; [exact IH | now destruct Hne].
Qed.

Lemma prefix_split (n h : string) :
  String.prefix n h = true -> exists post, h = n ++ post.
Proof.
  revert h. induction n as [| c n IH]; intros h Hp.
  - now exists h.
  - destruct h as [| d h]; [discriminate Hp |]. simpl in Hp.
    destruct (ascii_dec c d) as [-> | _]; [| discriminate Hp].
    destruct (IH h Hp) as [post ->]. now exists post.
Qed.

(** [contains] is Python's [in] on strings. *)
Lemma contains_spec (n h : string) :
  contains n h = true <-> exists pre post, h = pre ++ n ++ post.
Proof.
  split.
  - induction h as [| c h IH]; unfold contains; fold contains; intros Hc.
    + apply orb_true_iff in Hc. destruct Hc as [Hp | Hf]; [| discriminate Hf].
      destruct (prefix_split _ _ Hp) as [post ->]. now exists "", post.
    + apply orb_true_iff in Hc. destruct Hc as [Hp | Hc].
      * destruct (prefix_split _ _ Hp) as [post ->]. now exists "", post.
      * destruct (IH Hc) as (pre & post & ->). now exists (String c pre), post.
  - intros (pre & post & ->).
    induction pre as [| c pre IH]; unfold String.append at 1; fold String.append.
    + destruct (n ++ post) eqn:E; unfold contains; fold contains;
        rewrite <- E, prefix_append; reflexivity.
    + unfold contains; fold contains. rewrite IH. apply orb_true_r.
Qed.

Lemma lower_append (a b : string) : lower (a ++ b) = lower a ++ lower b.
Proof.
  induction a as [| c a IH]; [reflexivity |].
  unfold String.append; fold String.append.
  unfold lower; fold lower. now rewrite IH.
Qed.

Lemma lower_split (x a b : string) :
  lower x = a ++ b -> exists xa xb, x = xa ++ xb /\ lower xa = a /\ lower xb = b.
Proof.
  revert x. induction a as [| c a IH]; intros x Hx.
  - now exists "", x.
  - destruct x as [| d x]; [discriminate Hx |].
    unfold lower in Hx; fold lower in Hx.
    unfold String.append in Hx; fold String.append in Hx.
    injection Hx as Hc Hx.
    destruct (IH x Hx) as (xa & xb & -> & Ha & Hb).
    exists (String d xa), xb. unfold lower; fold lower.
    now rewrite Hc, Ha.
Qed.

(** X6. The already-fixed test of line 56 holds exactly for an extra field
    that is a string with auto_increment somewhere in it, in any mix of
    letter cases; the verification test of line 82 holds exactly for a
    string with AUTO_INCREMENT in it in upper case. *)
Theorem marker_tests :
  forall f : field,
    (in_lower "auto_increment" f = inr true <->
     exists pre w post,
       f = FStr (pre ++ w ++ post) /\ lower w = "auto_increment") /\
    (in_field "AUTO_INCREMENT" f = inr true <->
     exists pre post, f = FStr (pre ++ "AUTO_INCREMENT" ++ post)).
Proof.
  intros f. split; split.
  - destruct f as [| z | s | b]; try discriminate. simpl. intros [= Hc].
    apply contains_spec in Hc. destruct Hc as (a & b & Hs).
    apply lower_split in Hs. destruct Hs as (pre & rest & -> & _ & Hrest).
    apply lower_split in Hrest. destruct Hrest as (w & post & -> & Hw & _).
    now exists pre, w, post.
  - intros (pre & w & post & -> & Hw). simpl. f_equal.
    rewrite !lower_append, Hw. apply contains_spec. eauto.
  - destruct f as [| z | s | b]; try discriminate. simpl. intros [= Hc].
    apply contains_spec in Hc. destruct Hc as (pre & post & ->). eauto.
  - intros (pre & post & ->). simpl. f_equal. apply contains_spec. eauto.
Qed.

(** ** The selection of the [id] rows *)

(** The selection raises exactly when some row is empty, and filters
    otherwise. *)
Lemma id_column_spec (columns : list row) :
  ((exists e, id_column columns = inl e) <-> In [] columns) /\
  (~ In [] columns ->
   id_column columns =
   inr (filter (fun col => match col with
                           | name :: _ => is_id name
                           | [] => false
                           end) columns)).
Proof.
  induction columns as [| col columns [IHraise IHfilter]].
  - split; [split; [intros [e H]; discriminate H | intros []] | reflexivity].
  - split; [split |].
    + intros [e H]. destruct col as [| name col]; [now left |]. right.
      apply IHraise. simpl in H. unfold index in H. simpl in H.
      destruct (id_column columns) as [e' | ids]; [eauto | discriminate H].
    + intros [-> | Hin]; [simpl; eauto |].
      destruct (proj2 IHraise Hin) as [e He].
      destruct col as [| name col]; simpl; [eauto |].
      unfold index. simpl. rewrite He. eauto.
    + intros Hnone. destruct col as [| name col]; [destruct Hnone; now left |].
      simpl. unfold index. simpl. rewrite IHfilter.
      * now destruct (is_id name).
      * intros Hin. apply Hnone. now right.
Qed.

(** X7. The selection of line 53 raises (an index error) exactly when some
    DESCRIBE row has no field at all; otherwise it is the rows whose first
    field is the string [id], in their order: a first field that is bytes,
    a number, [None] or another spelling such as ID selects nothing. *)
Theorem id_rows_selected :
  forall columns : list row,
    (In [] columns /\
     id_column columns = inl (OtherException "tuple index out of range")) \/
    (~ In [] columns /\
     id_column columns =
     inr (filter (fun col => match col with
                             | FStr name :: _ => String.eqb name "id"
                             | _ => false
                             end) columns)).
Proof.
  intros columns. destruct (id_column_spec columns) as [Hraise Hfilter].
  destruct (id_column columns) as [e | ids] eqn:He.
  - left. split; [apply Hraise; eauto |]. f_equal.
    clear - He. induction columns as [| col columns IH]; [discriminate He |].
    simpl in He. destruct col as [| name col].
    + simpl in He. now injection He as <-.
    + unfold index in He. simpl in He.
      destruct (id_column columns) as [e' | ids]; [| discriminate He].
      injection He as <-. now apply IH.
  - assert (~ In [] columns) as Hnone.
    { intros Hin. destruct (proj2 Hraise Hin) as [e H]. discriminate H. }
    right. split; [assumption |]. rewrite (Hfilter Hnone).
    reflexivity.
Qed.

(** ** Values the checks cannot read *)

Lemma in_lower_not_string (x : field) :
  (forall s, x <> FStr s) ->
  exists text, in_lower "auto_increment" x = inl (OtherException text).
Proof.
  intros Hx. destruct x as [| z | s | b]; simpl; eauto.
  now destruct (Hx s).
Qed.

(** X8. When the extra field of the first [id] row is not a string (it is
    [None], a number or bytes), the already-fixed test raises: [fix_node]
    reports an unexpected error and returns failure, having sent the
    DESCRIBE only. *)
Theorem extra_not_a_string_fails :
  forall (St : Type) (client : Client St) (node_name : string)
         (config : Config) (st : St) (columns : list row)
         (first : row) (rest : list row) (x : field),
    fetched (trace_of (fix_node node_name config st)) = Some columns ->
    id_column columns = inr (first :: rest) ->
    nth_error first 5 = Some x ->
    (forall s, x <> FStr s) ->
    value_of (fix_node node_name config st) = inr false /\
    statements (trace_of (fix_node node_name config st)) = [DESCRIBE_USERS] /\
    exists text,
      after is_fetchall (trace_of (fix_node node_name config st)) =
      [Print ("✗ Unexpected error on " ++ node_name ++ ": " ++ text)].
Proof.
  intros St client node_name config st columns first rest x
         Hfetched Hid Hsixth Hx.
  destruct (fix_node_fetched _ _ _ _ Hfetched) as [st4 ->].
  destruct (in_lower_not_string x Hx) as [text Hin].
  unfold guarded, check_columns.
  rewrite try_lift, Hid, try_lift, (extra_sixth _ _ Hsixth), try_lift, Hin.
  simpl. repeat split. now exists text.
Qed.

Lemma extra_not_a_string_fails_witness :
  value_of (fix_node "Central (Node 0)" node0 null_extra) = inr false /\
  statements (trace_of (fix_node "Central (Node 0)" node0 null_extra)) =
  [DESCRIBE_USERS] /\
  exists text,
    after is_fetchall (trace_of (fix_node "Central (Node 0)" node0 null_extra)) =
    [Print ("✗ Unexpected error on " ++ "Central (Node 0)" ++ ": " ++ text)].
Proof.
  apply (extra_not_a_string_fails script scripted "Central (Node 0)" node0
           null_extra (describe_rows null_extra)
           [FStr "id"; FStr "int"; FStr "NO"; FStr ""; FNone; FNone] [] FNone);
    try reflexivity.
  intros s H. discriminate H.
Defined.

Section Unreadable.

Context {St : Type} {client : Client St}.

Lemma second_unreadable (r : option row) :
  r = None \/ (exists fields, r = Some fields /\ (length fields < 2)%nat) ->
  exists text, second r = inl (OtherException text).
Proof.
  intros [-> | (fields & -> & Hlen)]; simpl; [eauto |].
  unfold index. destruct fields as [| a [| b fields]]; simpl in *; eauto. lia.
Qed.

Lemma verify_unreadable (node_name : string) (st : St) (r : option row)
      (text : string) :
  let run := guarded node_name (verify node_name ;; smoke_test node_name) st in
  created (trace_of run) = Some r ->
  second r = inl (OtherException text) ->
  value_of run = inr false /\
  statements (trace_of run) = [SHOW_CREATE] /\
  after is_fetchone (trace_of run) =
  [Print ("✗ Unexpected error on " ++ node_name ++ ": " ++ text)].
Proof.
  cbv zeta. intros Hcreated Hsecond. revert Hcreated.
  rewrite verify_run, trace_of_prepend, value_of_prepend. simpl.
  destruct (execute SHOW_CREATE st) as [st1 [e | []]].
  { destruct (fix_node_handler_run node_name e st1) as [line ->]. discriminate. }
  rewrite trace_of_prepend, value_of_prepend. simpl.
  destruct (fetchone st1) as [st2 [e | r']].
  { destruct (fix_node_handler_run node_name e st2) as [line ->]. discriminate. }
  rewrite trace_of_prepend, value_of_prepend. simpl.
  intros [= ->]. rewrite Hsecond. simpl. now repeat split.
Qed.

Lemma alter_statements (st : St) :
  statements (trace_of (alter st)) = [ALTER_WITH_PK] \/
  statements (trace_of (alter st)) = [ALTER_WITH_PK; ALTER_WITHOUT_PK].
Proof.
  rewrite alter_run.
  destruct (execute ALTER_WITH_PK st) as [st1 [[errno text | text] | []]];
    [destruct (contains "1068" text) | |];
    rewrite ?trace_of_prepend; simpl; auto.
  unfold call_execute, invoke.
  destruct (execute ALTER_WITHOUT_PK st1) as [st2 [e | []]]; simpl; auto.
Qed.

Lemma apply_fix_unreadable (node_name : string) (st : St) (r : option row)
      (text : string) :
  let run := guarded node_name (apply_fix node_name) st in
  created (trace_of run) = Some r ->
  second r = inl (OtherException text) ->
  value_of run = inr false /\
  In (Call Commit Done) (trace_of run) /\
  (statements (trace_of run) = [ALTER_WITH_PK; SHOW_CREATE] \/
   statements (trace_of run) = [ALTER_WITH_PK; ALTER_WITHOUT_PK; SHOW_CREATE]) /\
  after is_fetchone (trace_of run) =
  [Print ("✗ Unexpected error on " ++ node_name ++ ": " ++ text)].
Proof.
  cbv zeta. intros Hcreated Hsecond. revert Hcreated.
  rewrite apply_fix_run, trace_of_prepend, value_of_prepend. simpl.
  pose proof (alter_no_fetchone st) as Hquiet.
  pose proof (alter_statements st) as Hsent.
  destruct (alter st) as [[st1 t1] [e | []]]; simpl in Hquiet, Hsent;
    rewrite trace_of_prepend, value_of_prepend, created_app, after_fetchone_app
    by assumption.
  { destruct (fix_node_handler_run node_name e st1) as [line ->]. discriminate. }
  destruct (commit st1) as [st2 [e | []]];
    rewrite trace_of_prepend, value_of_prepend; simpl.
  { destruct (fix_node_handler_run node_name e st2) as [line ->]. discriminate. }
  intros Hcreated.
  destruct (verify_unreadable node_name st2 r text Hcreated Hsecond)
    as (Hvalue & Hshow & Hafter).
  split; [assumption |]. split.
  { right. apply in_or_app. right. now left. }
  split; [| assumption].
  rewrite statements_app. simpl. rewrite Hshow.
  destruct Hsent as [-> | ->]; auto.
Qed.

End Unreadable.

(** X9. When [fetchone()] after SHOW CREATE TABLE hands over [None] or a
    row of fewer than two fields, [fix_node] reports an unexpected error
    and returns failure after the ALTER was sent and committed: nothing is
    sent to undo it, and no test insert follows. *)
Theorem unreadable_definition_fails_after_commit :
  forall (St : Type) (client : Client St) (node_name : string)
         (config : Config) (st : St) (r : option row),
    created (trace_of (fix_node node_name config st)) = Some r ->
    r = None \/ (exists fields, r = Some fields /\ (length fields < 2)%nat) ->
    value_of (fix_node node_name config st) = inr false /\
    In (Call Commit Done) (trace_of (fix_node node_name config st)) /\
    (statements (trace_of (fix_node node_name config st)) =
     [DESCRIBE_USERS; ALTER_WITH_PK; SHOW_CREATE] \/
     statements (trace_of (fix_node node_name config st)) =
     [DESCRIBE_USERS; ALTER_WITH_PK; ALTER_WITHOUT_PK; SHOW_CREATE]) /\
    exists text,
      after is_fetchone (trace_of (fix_node node_name config st)) =
      [Print ("✗ Unexpected error on " ++ node_name ++ ": " ++ text)].
Proof.
  intros St client node_name config st r Hcreated Hr.
  destruct (second_unreadable r Hr) as [text Hsecond].
  destruct (fix_node_applies node_name config st)
    as [(st5 & columns & verdict & Hverdict & Hrun) | [_ Hnone]];
    [| congruence].
  rewrite Hrun in *. rewrite trace_of_prepend in *. rewrite value_of_prepend.
  assert (Forall not_fetchone (prelude node_name config columns ++ verdict)%list)
    as Hquiet by (destruct Hverdict as [-> | ->]; repeat constructor).
  assert (statements (prelude node_name config columns ++ verdict)%list
          = [DESCRIBE_USERS]) as Hsent
      by (destruct Hverdict as [-> | ->]; reflexivity).
  rewrite created_app in Hcreated by assumption.
  rewrite after_fetchone_app by assumption.
  rewrite statements_app, Hsent.
  destruct (apply_fix_unreadable node_name st5 r text Hcreated Hsecond)
    as (Hvalue & Hcommit & Hstatements & Hafter).
  split; [assumption |]. split.
  { apply in_or_app. now right. }
  split; [| now exists text].
  destruct Hstatements as [-> | ->]; auto.
Qed.

Lemma unreadable_definition_fails_after_commit_witness :
  value_of (fix_node "Central (Node 0)" node0 no_definition) = inr false /\
  In (Call Commit Done) (trace_of (fix_node "Central (Node 0)" node0 no_definition)) /\
  (statements (trace_of (fix_node "Central (Node 0)" node0 no_definition)) =
   [DESCRIBE_USERS; ALTER_WITH_PK; SHOW_CREATE] \/
   statements (trace_of (fix_node "Central (Node 0)" node0 no_definition)) =
   [DESCRIBE_USERS; ALTER_WITH_PK; ALTER_WITHOUT_PK; SHOW_CREATE]) /\
  exists text,
    after is_fetchone (trace_of (fix_node "Central (Node 0)" node0 no_definition)) =
    [Print ("✗ Unexpected error on " ++ "Central (Node 0)" ++ ": " ++ text)].
Proof.
  apply (unreadable_definition_fails_after_commit script scripted
           "Central (Node 0)" node0 no_definition None).
  - reflexivity.
  - left. reflexivity.
Defined.

(** ** The id in the DELETE *)

Lemma to_int_proper (z : Z) :
  Z.to_int z <> Decimal.Pos Decimal.Nil /\ Z.to_int z <> Decimal.Neg Decimal.Nil.
Proof.
  destruct z as [| p | p]; simpl; split; try discriminate;
    intros [= H]; now apply (DecimalPos.Unsigned.to_uint_nonnil p).
Qed.

Lemma str_int_parses (z : Z) :
  NilZero.int_of_string (str_int z) = Some (Z.to_int z).
Proof.
  unfold str_int. destruct (to_int_proper z). now apply NilZero.isi.
Qed.

Lemma str_int_inj (a b : Z) : str_int a = str_int b -> a = b.
Proof.
  intros H. apply (f_equal NilZero.int_of_string) in H.
  rewrite !str_int_parses in H. injection H as H.
  apply (f_equal Z.of_int) in H. now rewrite !DecimalZ.of_to in H.
Qed.

Lemma append_inj_l (s a b : string) : s ++ a = s ++ b -> a = b.
Proof.
  induction s as [| c s IH]; [trivial |].
  unfold String.append; fold String.append. intros [= H]. now apply IH.
Qed.

(** X10. The DELETE names the id that [lastrowid] gave and no other: two
    ids give the same statement only when they are equal, and a missing
    id ([None]) gives a statement that no number gives. *)
Theorem delete_names_its_id :
  forall i j : option Z, DELETE_TEST i = DELETE_TEST j <-> i = j.
Proof.
  intros i j. split; [| now intros ->].
  unfold DELETE_TEST. intros H. apply append_inj_l in H.
  destruct i as [a |], j as [b |]; unfold str_id in H.
  - f_equal. now apply str_int_inj.
  - apply (f_equal NilZero.int_of_string) in H.
    rewrite str_int_parses in H. discriminate H.
  - apply (f_equal NilZero.int_of_string) in H.
    rewrite str_int_parses in H. discriminate H.
  - reflexivity.
Qed.

(** ** Every path of [fix_node] *)

Lemma eqb_describe : String.eqb DESCRIBE_USERS ALTER_WITH_PK = false.
Proof. reflexivity. Qed.
Lemma eqb_alter : String.eqb ALTER_WITH_PK ALTER_WITH_PK = true.
Proof. reflexivity. Qed.
Lemma eqb_fallback : String.eqb ALTER_WITHOUT_PK ALTER_WITH_PK = false.
Proof. reflexivity. Qed.
Lemma eqb_show : String.eqb SHOW_CREATE ALTER_WITH_PK = false.
Proof. reflexivity. Qed.
Lemma eqb_insert : String.eqb INSERT_TEST ALTER_WITH_PK = false.
Proof. reflexivity. Qed.
Lemma eqb_delete (i : option Z) : String.eqb (DELETE_TEST i) ALTER_WITH_PK = false.
Proof. reflexivity. Qed.

Ltac compare_statements :=
  rewrite ?eqb_describe, ?eqb_alter, ?eqb_fallback, ?eqb_show, ?eqb_insert,
    ?eqb_delete.

Ltac compare_statements_in H :=
  rewrite ?eqb_describe, ?eqb_alter, ?eqb_fallback, ?eqb_show, ?eqb_insert,
    ?eqb_delete in H.

Ltac unfold_run H :=
  unfold fix_node, fix_node_body, fix_node_handler, check_columns, apply_fix,
    verify, smoke_test, alter, call_connect, call_cursor, call_execute,
    call_fetchall, call_fetchone, call_commit, call_lastrowid,
    call_cursor_close, call_conn_close, bind, try_except, invoke, print, ret,
    raise, lift, prepend in H.

Ltac innermost x :=
  lazymatch x with
  | context [match ?y with _ => _ end] => innermost y
  | _ => x
  end.

Ltac case_run H :=
  match type of H with
  | context [match ?x with _ => _ end] =>
      let y := innermost x in
      destruct y eqn:?; simpl in H
  end.

(** At the end of a path the trace is known event by event: compute the
    readers on it. *)
Ltac read_trace_in H :=
  repeat first
    [ progress cbn [find after unrecovered is_lastrowid rowid negb andb] in H
    | progress compare_statements_in H
    | match goal with
      | E : contains "1068" _ = _ |- _ => rewrite E in H
      end ].

Ltac read_trace :=
  repeat first
    [ progress cbn [find after unrecovered is_lastrowid rowid statements
                    error_line negb andb]
    | progress compare_statements
    | match goal with
      | E : contains "1068" _ = _ |- _ => rewrite E
      end ].

Ltac in_order :=
  first [ left; eexists; reflexivity | right; eexists; reflexivity ].

Lemma fix_node_paths {St : Type} {client : Client St}
      (node_name : string) (config : Config) (st : St) :
  let run := fix_node node_name config st in
  (value_of run = inr true <-> In (Call ConnClose Done) (trace_of run)) /\
  (forall c e,
      find unrecovered (trace_of run) = Some (Call c (Raised e)) ->
      after unrecovered (trace_of run) = [Print (error_line node_name e)] /\
      value_of run = inr false) /\
  (exists i,
      begins (statements (trace_of run))
             [DESCRIBE_USERS; ALTER_WITH_PK; SHOW_CREATE; INSERT_TEST; DELETE_TEST i] \/
      begins (statements (trace_of run))
             [DESCRIBE_USERS; ALTER_WITH_PK; ALTER_WITHOUT_PK; SHOW_CREATE;
              INSERT_TEST; DELETE_TEST i]) /\
  (forall i,
      rowid (trace_of run) = Some i ->
      exists reply more,
        after is_lastrowid (trace_of run) =
        Print ("   ✓ Test insert successful! Auto-generated ID: " ++ str_id i) ::
        Call (Execute (DELETE_TEST i)) reply :: more).
Proof.
  cbv zeta. remember (fix_node node_name config st) as run eqn:Hrun.
  unfold_run Hrun.
  repeat case_run Hrun.
  all: subst run; cbn [trace_of value_of state_of fst snd].
  all: split; [| split; [| split]].
  all: lazymatch goal with
       | |- _ <-> _ =>
           split;
           [ intros H; try discriminate H; simpl; tauto
           | simpl; intros H; try reflexivity;
             repeat (destruct H as [H | H]; [discriminate H |]); destruct H ]
       | |- forall c e, find _ _ = _ -> _ =>
           intros ? ? Hfirst; read_trace_in Hfirst;
           first [ discriminate Hfirst
                 | injection Hfirst as <- <-; read_trace; split; reflexivity ]
       | |- exists i, _ \/ _ =>
           cbn [statements];
           first [ exists None; in_order | eexists; in_order ]
       | |- forall i, rowid _ = _ -> _ =>
           intros ? Hid; cbn [rowid] in Hid;
           first [ discriminate Hid
                 | injection Hid as <-; cbn [after is_lastrowid]; eauto ]
       end.
Qed.

(** X11. [fix_node] returns success exactly when it has closed the
    connection: on every failure, whatever its cause, [conn.close()] was
    not called or did not return. *)
Theorem success_iff_connection_closed :
  forall (St : Type) (client : Client St) (node_name : string)
         (config : Config) (st : St),
    value_of (fix_node node_name config st) = inr true <->
    In (Call ConnClose Done) (trace_of (fix_node node_name config st)).
Proof. intros. apply fix_node_paths. Qed.

(** X12. The first client call that raises, other than a database error
    with 1068 in its text on the ALTER with PRIMARY KEY, ends the run:
    [fix_node] makes no further call, prints the line of the handler for
    that exception ("Error" for a database error, "Unexpected error" for
    any other) and returns failure. *)
Theorem first_failure_ends_the_run :
  forall (St : Type) (client : Client St) (node_name : string)
         (config : Config) (st : St) (c : call) (e : exn),
    find unrecovered (trace_of (fix_node node_name config st)) =
    Some (Call c (Raised e)) ->
    after unrecovered (trace_of (fix_node node_name config st)) =
    [Print (error_line node_name e)] /\
    value_of (fix_node node_name config st) = inr false.
Proof. intros St client node_name config st. apply fix_node_paths. Qed.

Lemma first_failure_ends_the_run_witness :
  after unrecovered (trace_of (fix_node "Central (Node 0)" node0 locked_table)) =
  [Print (error_line "Central (Node 0)"
            (MySQLError 1205
               "1205 (HY000): Lock wait timeout exceeded; try restarting transaction"))] /\
  value_of (fix_node "Central (Node 0)" node0 locked_table) = inr false.
Proof.
  apply (first_failure_ends_the_run script scripted "Central (Node 0)" node0
           locked_table (Execute ALTER_WITH_PK)).
  reflexivity.
Defined.

(** X13. The statements of a run are a beginning of DESCRIBE, ALTER with
    PRIMARY KEY, possibly the ALTER without it, SHOW CREATE TABLE, INSERT,
    DELETE: none is sent twice or out of this order, so no INSERT before
    the ALTER and no DELETE without the INSERT. *)
Theorem statements_in_order :
  forall (St : Type) (client : Client St) (node_name : string)
         (config : Config) (st : St),
  exists i : option Z,
    begins (statements (trace_of (fix_node node_name config st)))
           [DESCRIBE_USERS; ALTER_WITH_PK; SHOW_CREATE; INSERT_TEST;
            DELETE_TEST i] \/
    begins (statements (trace_of (fix_node node_name config st)))
           [DESCRIBE_USERS; ALTER_WITH_PK; ALTER_WITHOUT_PK; SHOW_CREATE;
            INSERT_TEST; DELETE_TEST i].
Proof. intros. apply fix_node_paths. Qed.

(** X14. What [cursor.lastrowid] gives is used as it is: the run prints it
    and sends the DELETE for it next, without any test on it; when it is
    [None] the statement sent is DELETE FROM users WHERE id = None. *)
Theorem delete_uses_lastrowid :
  forall (St : Type) (client : Client St) (node_name : string)
         (config : Config) (st : St) (i : option Z),
    rowid (trace_of (fix_node node_name config st)) = Some i ->
    exists reply more,
      after is_lastrowid (trace_of (fix_node node_name config st)) =
      Print ("   ✓ Test insert successful! Auto-generated ID: " ++ str_id i) ::
      Call (Execute (DELETE_TEST i)) reply :: more.
Proof. intros St client node_name config st. apply fix_node_paths. Qed.

Lemma delete_uses_lastrowid_witness :
  exists reply more,
    after is_lastrowid (trace_of (fix_node "Central (Node 0)" node0 no_rowid)) =
    Print ("   ✓ Test insert successful! Auto-generated ID: " ++ "None") ::
    Call (Execute "DELETE FROM users WHERE id = None") reply :: more.
Proof.
  apply (delete_uses_lastrowid script scripted "Central (Node 0)" node0
           no_rowid None).
  reflexivity.
Defined.
